(** * Funding-arbitrage dashboard: formatting helpers, badge ladders,
      the fetch cycle and the auto-refresh timer.

    Sources embedded here:
    - [src/frontend/src/lib/utils.js]: [formatNumber], [formatPercent];
    - [src/frontend/src/components/FundingArbitrageDashboard.js]: the state
      hooks, [fetchData], the two effects, [getFundingBadgeVariant],
      [getPriceChangeBadgeVariant] and the markup returned by the component.

    JavaScript numbers are IEEE-754 binary64 values; they are modelled with
    the Standard Library's [spec_float] at precision 53 and exponent bound
    1024, so comparisons, products and quotients round as they do in the
    engine. *)

From Stdlib Require Import ZArith NArith List String Ascii Bool Lia.
From Stdlib Require Import Numbers.DecimalString Floats.SpecFloat.
Import ListNotations.

Local Open Scope string_scope.

(* ------------------------------------------------------------------ *)
(** ** JavaScript numbers *)

Module JSNumber.

Definition number := spec_float.

Definition prec : Z := 53.
Definition emax : Z := 1024.

(** An integer literal such as [100] or [1e9]. *)
Definition of_Z (z : Z) : number := binary_normalize prec emax z 0 false.

(** A decimal literal [d / 10^k], e.g. [0.0005] is [decimal 5 4].  Numerator
    and denominator are exact binary64 values for the literals of this
    program, so the correctly rounded quotient is the literal's value. *)
Definition decimal (d : Z) (k : nat) : number :=
  SFdiv prec emax (of_Z d) (of_Z (10 ^ Z.of_nat k)).

Definition neg (x : number) : number := SFopp x.
Definition mul (x y : number) : number := SFmul prec emax x y.
Definition div (x y : number) : number := SFdiv prec emax x y.

(** [x < y], [x > y], [x >= y] of the language; every comparison with NaN
    is false. *)
Definition lt (x y : number) : bool := SFltb x y.
Definition gt (x y : number) : bool := SFltb y x.
Definition ge (x y : number) : bool := SFleb y x.

Definition is_digit (c : ascii) : bool :=
  let n := nat_of_ascii c in (48 <=? n)%nat && (n <=? 57)%nat.

(** Decimal digits of a natural number, ["0"] for zero. *)
Definition digits (n : N) : string := NilZero.string_of_uint (N.to_uint n).

Fixpoint zeros (k : nat) : string :=
  match k with
  | O => ""
  | S k' => String "0" (zeros k')
  end.

(** Steps 8-10 of [Number.prototype.toFixed]: the digits of [n], padded on
    the left to [f + 1] characters, with the point before the last [f]. *)
Definition fixed_digits (n : N) (f : nat) : string :=
  let m := digits n in
  match f with
  | O => m
  | S _ =>
      let k := String.length m in
      let m := if (k <=? f)%nat then zeros (S f - k) ++ m else m in
      let k := String.length m in
      substring 0 (k - f) m ++ "." ++ substring (k - f) f m
  end.

(** The integer [n] for which [n / 10^f] is closest to [m * 2^e], the larger
    one when two are equally close. *)
Definition nearest_scaled (m : positive) (e : Z) (f : nat) : N :=
  let scaled := (Z.pos m * 10 ^ Z.of_nat f)%Z in
  Z.to_N (match e with
          | Zneg p => (2 * scaled + 2 ^ Z.pos p) / 2 ^ (Z.pos p + 1)
          | _ => scaled * 2 ^ e
          end)%Z.

(** [m * 2^e >= 10^21], decided on the exact value. *)
Definition at_least_1e21 (m : positive) (e : Z) : bool :=
  match e with
  | Zneg p => (10 ^ 21 * 2 ^ Z.pos p <=? Z.pos m)%Z
  | _ => (10 ^ 21 <=? Z.pos m * 2 ^ e)%Z
  end.

(** [Number::toString] for a positive finite value of at least [10^21],
    the only case [toFixed] delegates to it: the shortest decimal
    significand [s] (with [k] digits) such that [s * 10^(n-k)] reads back as
    the same binary64 value, printed in exponent form. *)
Definition reads_back (v : Z) (m : positive) (e : Z) : bool :=
  match of_Z v with
  | S754_finite false m' e' => Pos.eqb m m' && Z.eqb e e'
  | _ => false
  end.

Fixpoint shortest (fuel k : nat) (X : Z) (n : nat) (m : positive) (e : Z) : Z :=
  match fuel with
  | O => X
  | S fuel' =>
      let p := (10 ^ Z.of_nat (n - k))%Z in
      let lo := (X / p * p)%Z in
      let hi := (lo + p)%Z in
      match reads_back lo m e, reads_back hi m e with
      | true, true =>
          match (X - lo ?= hi - X)%Z with
          | Lt => lo
          | Gt => hi
          | Eq => if Z.even (X / p) then lo else hi
          end
      | true, false => lo
      | false, true => hi
      | false, false => shortest fuel' (S k) X n m e
      end
  end.

Fixpoint strip_zeros (ds : list ascii) : list ascii :=
  match ds with
  | [] => []
  | c :: rest =>
      match strip_zeros rest with
      | [] => if Ascii.eqb c "0" then [] else [c]
      | rest' => c :: rest'
      end
  end.

Definition exponent_notation (m : positive) (e : Z) : string :=
  let X := Z.shiftl (Z.pos m) e in
  let n := String.length (digits (Z.to_N X)) in
  let v := shortest 17 1 X n m e in
  let ds := digits (Z.to_N v) in
  let c := (String.length ds - 1)%nat in
  match strip_zeros (list_ascii_of_string ds) with
  | [] => "0"
  | [d] => String d "e+" ++ digits (N.of_nat c)
  | d :: rest =>
      String d "." ++ string_of_list_ascii rest ++ "e+" ++ digits (N.of_nat c)
  end.

(** [Number.prototype.toFixed(fractionDigits)] for [fractionDigits] in the
    range 0..100 the method accepts (outside it the method throws a
    [RangeError]); every call of this program passes 2 or 4. *)
Definition toFixed (x : number) (fractionDigits : nat) : string :=
  match x with
  | S754_nan => "NaN"
  | S754_infinity s => (if s then "-" else "") ++ "Infinity"
  | S754_zero _ => fixed_digits 0 fractionDigits
  | S754_finite s m e =>
      (if s then "-" else "") ++
      (if at_least_1e21 m e then exponent_notation m e
       else fixed_digits (nearest_scaled m e fractionDigits) fractionDigits)
  end.

End JSNumber.

(* ------------------------------------------------------------------ *)
(** ** [lib/utils.js] *)

Module Utils.
Import JSNumber.

(** A default parameter takes its default when the argument is omitted. *)
Definition default_arg {A : Type} (dflt : A) (arg : option A) : A :=
  match arg with
  | Some a => a
  | None => dflt
  end.

Definition formatNumber (num : number) (decimals_arg : option nat) : string :=
  let decimals := default_arg 2%nat decimals_arg in
  if ge num (of_Z (10 ^ 9)) then
    toFixed (div num (of_Z (10 ^ 9))) decimals ++ "B"
  else if ge num (of_Z (10 ^ 6)) then
    toFixed (div num (of_Z (10 ^ 6))) decimals ++ "M"
  else if ge num (of_Z (10 ^ 3)) then
    toFixed (div num (of_Z (10 ^ 3))) decimals ++ "K"
  else
    toFixed num decimals.

Definition formatPercent (num : number) (decimals_arg : option nat) : string :=
  let decimals := default_arg 4%nat decimals_arg in
  toFixed (mul num (of_Z 100)) decimals ++ "%".

End Utils.

(* ------------------------------------------------------------------ *)
(** ** The data received from [GET /api/funding-arbitrage] *)

Module Api.
Import JSNumber.

Record MarketRow := {
  symbol : string;
  mark_price : number;
  funding_rate : number;
  open_interest : number;
  day_volume : number;
  price_change_24h : number;
  premium : number
}.

Record HighestFunding := {
  hf_symbol : string;
  hf_funding_rate : number
}.

(** [response.data].  A field the body may omit is an [option]; [None] is
    the language's [undefined]. *)
Record Snapshot := {
  success : bool;
  error_field : option string;
  total_markets : option Z;
  filtered_markets : option Z;
  highest_funding_rate : option HighestFunding;
  markets : option (list MarketRow)
}.

(** What [await axios.get(...)] produces: a response, or a thrown error of
    which the handler reads [err.response?.data?.detail] and [err.message]
    (both text when present). *)
Record Thrown := {
  detail : option string;
  message : option string
}.

Inductive Outcome :=
| Fulfilled (body : Snapshot)
| Rejected (err : Thrown).

End Api.

(* ------------------------------------------------------------------ *)
(** ** Truthiness and [||] *)

Module Truthy.

(** The empty string is falsy, every other string truthy. *)
Definition str (s : string) : bool :=
  match s with
  | EmptyString => false
  | String _ _ => true
  end.

(** [a || b] where [a] is a string or [undefined]/[null], [b] a string. *)
Definition or_str (a : option string) (b : string) : string :=
  match a with
  | Some s => if str s then s else b
  | None => b
  end.

(** [a || b] where both may be absent. *)
Definition or_opt (a b : option string) : option string :=
  match a with
  | Some s => if str s then a else b
  | None => b
  end.

End Truthy.

(* ------------------------------------------------------------------ *)
(** ** [components/FundingArbitrageDashboard.js]: state and fetch cycle *)

Module Dashboard.
Import JSNumber Utils Api.

(** Milliseconds on the wall clock; [new Date()] reads it. *)
Definition Time := N.
Bind Scope N_scope with Time.

(** The five [useState] cells. *)
Record ViewState := {
  data : option Snapshot;
  loading : bool;
  error : option string;
  lastUpdated : option Time;
  autoRefresh : bool
}.

Definition initial_view : ViewState :=
  {| data := None; loading := true; error := None;
     lastUpdated := None; autoRefresh := true |}.

Definition setData (d : option Snapshot) (v : ViewState) : ViewState :=
  {| data := d; loading := loading v; error := error v;
     lastUpdated := lastUpdated v; autoRefresh := autoRefresh v |}.

Definition setLoading (b : bool) (v : ViewState) : ViewState :=
  {| data := data v; loading := b; error := error v;
     lastUpdated := lastUpdated v; autoRefresh := autoRefresh v |}.

Definition setError (e : option string) (v : ViewState) : ViewState :=
  {| data := data v; loading := loading v; error := e;
     lastUpdated := lastUpdated v; autoRefresh := autoRefresh v |}.

Definition setLastUpdated (t : option Time) (v : ViewState) : ViewState :=
  {| data := data v; loading := loading v; error := error v;
     lastUpdated := t; autoRefresh := autoRefresh v |}.

Definition setAutoRefresh (b : bool) (v : ViewState) : ViewState :=
  {| data := data v; loading := loading v; error := error v;
     lastUpdated := lastUpdated v; autoRefresh := b |}.

Definition generic_failure : string := "Failed to fetch data".

(** [fetchData] up to its [await]: the two updates before the request. *)
Definition fetch_begin (v : ViewState) : ViewState :=
  setError None (setLoading true v).

(** [fetchData] from the point where the awaited request settles, at clock
    reading [now]: the [if]/[else] of the [try], or the [catch], and then the
    [finally]. *)
Definition fetch_settle (now : Time) (o : Outcome) (v : ViewState) : ViewState :=
  let v' :=
    match o with
    | Fulfilled body =>
        if success body then
          setLastUpdated (Some now) (setData (Some body) v)
        else
          setError (Some (Truthy.or_str (error_field body) generic_failure)) v
    | Rejected err =>
        setError
          (Some (Truthy.or_str (Truthy.or_opt (detail err) (message err))
                               generic_failure)) v
    end in
  setLoading false v'.

(** One invocation of [fetchData] during whose [await] nothing else touches
    the state: it starts at [start] and the request settles [latency]
    milliseconds later. *)
Definition fetchData (start latency : Time) (o : Outcome) (v : ViewState)
  : ViewState :=
  fetch_settle (start + latency) o (fetch_begin v).

(* ------------------------------------------------------------------ *)
(** ** Badge ladders *)

Definition getFundingBadgeVariant (fundingRate : number) : string :=
  if gt fundingRate (decimal 5 4) then "success"
  else if gt fundingRate (decimal 1 4) then "warning"
  else if lt fundingRate (neg (decimal 1 4)) then "destructive"
  else "secondary".

Definition getPriceChangeBadgeVariant (priceChange : number) : string :=
  if gt priceChange (of_Z 5) then "success"
  else if gt priceChange (of_Z 0) then "warning"
  else if lt priceChange (neg (of_Z 5)) then "destructive"
  else "secondary".

End Dashboard.

(* ------------------------------------------------------------------ *)
(** ** What the component returns *)

Module Render.
Import JSNumber Utils Api Dashboard.

(** One [<TableRow>] of the markets table. *)
Record RowView := {
  row_key : string;
  row_highlighted : bool;
  symbol_text : string;
  best_badge : bool;
  mark_price_text : string;
  funding_variant : string;
  funding_text : string;
  open_interest_text : string;
  day_volume_text : string;
  change_variant : string;
  change_text : string;
  premium_text : string
}.

(** The children of the 24h-change badge: the sign expression, the
    [toFixed(2)] expression and the literal [%]. *)
Definition change_cell (price_change : number) : string :=
  (if gt price_change (of_Z 0) then "+" else "") ++
  toFixed price_change 2 ++ "%".

Definition render_row (market : MarketRow) (index : nat) : RowView :=
  {| row_key := symbol market;
     row_highlighted := Nat.eqb index 0;
     symbol_text := symbol market;
     best_badge := Nat.eqb index 0;
     mark_price_text := "$" ++ formatNumber (mark_price market) None;
     funding_variant := getFundingBadgeVariant (funding_rate market);
     funding_text := formatPercent (funding_rate market) None;
     open_interest_text := "$" ++ formatNumber (open_interest market) None;
     day_volume_text := "$" ++ formatNumber (day_volume market) None;
     change_variant := getPriceChangeBadgeVariant (price_change_24h market);
     change_text := change_cell (price_change_24h market);
     premium_text := formatPercent (premium market) None |}.

(** [Array.prototype.map] with the callback's index argument. *)
Fixpoint map_from {A B : Type} (f : A -> nat -> B) (i : nat) (l : list A)
  : list B :=
  match l with
  | [] => []
  | a :: rest => f a i :: map_from f (S i) rest
  end.

Definition array_map {A B : Type} (f : A -> nat -> B) (l : list A) : list B :=
  map_from f 0 l.

(** The values the expression inside [<TableBody>] can take. *)
Inductive Child :=
| Undefined
| RowArray (rows : list RowView)
| PlaceholderRow (text : string).

(** [undefined] is falsy; an array is an object, and every object is truthy,
    the empty array included; so is a React element. *)
Definition truthy (c : Child) : bool :=
  match c with
  | Undefined => false
  | RowArray _ => true
  | PlaceholderRow _ => true
  end.

Definition or_child (a b : Child) : Child := if truthy a then a else b.

Definition no_markets_text : string :=
  "No markets found with >$50M USD open interest".

(** [data?.markets?.map(...)]: [undefined] as soon as a link is missing. *)
Definition mapped_markets (d : option Snapshot) : Child :=
  match d with
  | None => Undefined
  | Some snapshot =>
      match markets snapshot with
      | None => Undefined
      | Some ms => RowArray (array_map render_row ms)
      end
  end.

Definition table_body (d : option Snapshot) : Child :=
  or_child (mapped_markets d) (PlaceholderRow no_markets_text).

(** [x || 0] on a count that may be missing. *)
Definition count_or_zero (c : option Z) : Z :=
  match c with
  | Some z => if (z =? 0)%Z then 0%Z else z
  | None => 0%Z
  end.

Definition opt_bind {A B : Type} (o : option A) (f : A -> option B) : option B :=
  match o with
  | Some a => f a
  | None => None
  end.

Record DashboardView := {
  refresh_disabled : bool;
  auto_label : string;
  last_updated_shown : option Time;
  total_card : Z;
  qualified_card : Z;
  highest_value : string;
  highest_symbol : string;
  body : Child
}.

Inductive Screen :=
| LoadingScreen
| ErrorScreen (msg : string)
| MainScreen (d : DashboardView).

Definition main_view (v : ViewState) : DashboardView :=
  let highest := opt_bind (data v) highest_funding_rate in
  {| refresh_disabled := loading v;
     auto_label := if autoRefresh v then "Auto: ON" else "Auto: OFF";
     last_updated_shown := lastUpdated v;
     total_card := count_or_zero (opt_bind (data v) total_markets);
     qualified_card := count_or_zero (opt_bind (data v) filtered_markets);
     highest_value :=
       match highest with
       | Some h => formatPercent (hf_funding_rate h) None
       | None => "N/A"
       end;
     highest_symbol :=
       Truthy.or_str
         (opt_bind highest (fun h => Some (hf_symbol h))) "No data";
     body := table_body (data v) |}.

(** The three [return]s of the component, in source order. *)
Definition render (v : ViewState) : Screen :=
  if loading v && match data v with None => true | Some _ => false end then
    LoadingScreen
  else
    match error v with
    | Some msg => if Truthy.str msg then ErrorScreen msg else MainScreen (main_view v)
    | None => MainScreen (main_view v)
    end.

(** Whether the placeholder row is among the rendered table rows. *)
Definition shows_placeholder (s : Screen) : bool :=
  match s with
  | MainScreen d =>
      match body d with
      | PlaceholderRow _ => true
      | _ => false
      end
  | _ => false
  end.

Definition is_error_screen (s : Screen) : bool :=
  match s with
  | ErrorScreen _ => true
  | _ => false
  end.

End Render.

(* ------------------------------------------------------------------ *)
(** ** The mounted component on the event loop

    One world per point between two tasks of the event loop: the state
    cells, the clock, the interval timers, the cleanup React holds for the
    auto-refresh effect and the requests that are awaiting their response. *)

Module Lifecycle.
Import Api Dashboard Render.

Inductive Initiator := ByMount | ByTimer | ByClick.

Record Request := {
  req_id : nat;
  req_started : Time;
  req_by : Initiator
}.

Record Timer := {
  timer_id : nat;
  due : Time
}.

Definition period : Time := 30000%N.

Record World := {
  mounted : bool;
  view : ViewState;
  clock : Time;
  timers : list Timer;
  effect_cleanup : option nat;
  next_timer : nat;
  in_flight : list Request;
  next_request : nat;
  fetch_log : list Request
}.

Definition unmounted (t0 : Time) : World :=
  {| mounted := false; view := initial_view; clock := t0; timers := [];
     effect_cleanup := None; next_timer := 0; in_flight := [];
     next_request := 0; fetch_log := [] |}.

(** A call of [fetchData()]: runs to the [await] and leaves the request in
    flight. *)
Definition begin_fetch (by_whom : Initiator) (w : World) : World :=
  let r := {| req_id := next_request w; req_started := clock w;
              req_by := by_whom |} in
  {| mounted := mounted w; view := fetch_begin (view w); clock := clock w;
     timers := timers w; effect_cleanup := effect_cleanup w;
     next_timer := next_timer w; in_flight := r :: in_flight w;
     next_request := S (next_request w); fetch_log := r :: fetch_log w |}.

Definition clearInterval (id : nat) (ts : list Timer) : list Timer :=
  filter (fun t => negb (Nat.eqb (timer_id t) id)) ts.

(** The effect with dependency [[autoRefresh]]: React first runs the cleanup
    the previous run returned, then the body, and keeps what it returns. *)
Definition refresh_effect (w : World) : World :=
  let cleaned :=
    match effect_cleanup w with
    | Some id => clearInterval id (timers w)
    | None => timers w
    end in
  if autoRefresh (view w) then
    {| mounted := mounted w; view := view w; clock := clock w;
       timers := cleaned ++ [{| timer_id := next_timer w;
                                due := (clock w + period)%N |}];
       effect_cleanup := Some (next_timer w);
       next_timer := S (next_timer w); in_flight := in_flight w;
       next_request := next_request w; fetch_log := fetch_log w |}
  else
    {| mounted := mounted w; view := view w; clock := clock w;
       timers := cleaned; effect_cleanup := None;
       next_timer := next_timer w; in_flight := in_flight w;
       next_request := next_request w; fetch_log := fetch_log w |}.

Definition with_view (v : ViewState) (w : World) : World :=
  {| mounted := mounted w; view := v; clock := clock w; timers := timers w;
     effect_cleanup := effect_cleanup w; next_timer := next_timer w;
     in_flight := in_flight w; next_request := next_request w;
     fetch_log := fetch_log w |}.

Definition with_timers (ts : list Timer) (w : World) : World :=
  {| mounted := mounted w; view := view w; clock := clock w; timers := ts;
     effect_cleanup := effect_cleanup w; next_timer := next_timer w;
     in_flight := in_flight w; next_request := next_request w;
     fetch_log := fetch_log w |}.

Definition with_clock (t : Time) (w : World) : World :=
  {| mounted := mounted w; view := view w; clock := t; timers := timers w;
     effect_cleanup := effect_cleanup w; next_timer := next_timer w;
     in_flight := in_flight w; next_request := next_request w;
     fetch_log := fetch_log w |}.

Definition with_in_flight (rs : list Request) (w : World) : World :=
  {| mounted := mounted w; view := view w; clock := clock w;
     timers := timers w; effect_cleanup := effect_cleanup w;
     next_timer := next_timer w; in_flight := rs;
     next_request := next_request w; fetch_log := fetch_log w |}.

Definition with_mounted (w : World) : World :=
  {| mounted := true; view := view w; clock := clock w; timers := timers w;
     effect_cleanup := effect_cleanup w; next_timer := next_timer w;
     in_flight := in_flight w; next_request := next_request w;
     fetch_log := fetch_log w |}.

Inductive Event :=
| Mount
| ClickRefresh
| ClickRetry
| ClickAuto
| Elapse (d : Time)
| TimerFires (id : nat)
| Settle (id : nat) (o : Outcome).

Definition is_due (now : Time) (id : nat) (t : Timer) : bool :=
  Nat.eqb (timer_id t) id && N.eqb (due t) now.

Definition reschedule (id : nat) (t : Timer) : Timer :=
  if Nat.eqb (timer_id t) id
  then {| timer_id := timer_id t; due := (due t + period)%N |}
  else t.

Definition is_request (id : nat) (r : Request) : bool := Nat.eqb (req_id r) id.

(** One task of the event loop.  [None]: the event cannot happen in this
    world (the button is not on the screen or is disabled, the timer is not
    due, time would run past a due timer, the request is not in flight). *)
Definition step (ev : Event) (w : World) : option World :=
  match ev with
  | Mount =>
      if mounted w then None
      else Some (refresh_effect (begin_fetch ByMount (with_mounted w)))
  | ClickRefresh =>
      match mounted w, render (view w) with
      | true, MainScreen d =>
          if refresh_disabled d then None else Some (begin_fetch ByClick w)
      | _, _ => None
      end
  | ClickRetry =>
      match mounted w, render (view w) with
      | true, ErrorScreen _ => Some (begin_fetch ByClick w)
      | _, _ => None
      end
  | ClickAuto =>
      match mounted w, render (view w) with
      | true, MainScreen _ =>
          Some (refresh_effect
                  (with_view (setAutoRefresh (negb (autoRefresh (view w)))
                                             (view w)) w))
      | _, _ => None
      end
  | Elapse d =>
      if mounted w &&
         forallb (fun t => (clock w + d <=? due t)%N) (timers w)
      then Some (with_clock (clock w + d)%N w)
      else None
  | TimerFires id =>
      if mounted w && existsb (is_due (clock w) id) (timers w)
      then Some (begin_fetch ByTimer
                   (with_timers (map (reschedule id) (timers w)) w))
      else None
  | Settle id o =>
      if mounted w && existsb (is_request id) (in_flight w)
      then Some (with_view (fetch_settle (clock w) o (view w))
                   (with_in_flight
                      (filter (fun r => negb (is_request id r)) (in_flight w))
                      w))
      else None
  end.

Fixpoint run (evs : list Event) (w : World) : option World :=
  match evs with
  | [] => Some w
  | ev :: rest =>
      match step ev w with
      | Some w' => run rest w'
      | None => None
      end
  end.

(** The discipline of the auto-refresh effect: while mounted with
    auto-refresh on, exactly one timer is set and React holds its cleanup;
    otherwise no timer is set and there is nothing to clean up. *)
Definition timer_discipline (w : World) : Prop :=
  if mounted w && autoRefresh (view w)
  then exists id d, timers w = [{| timer_id := id; due := d |}] /\
                    effect_cleanup w = Some id
  else timers w = [] /\ effect_cleanup w = None.

(** The worlds the component can be in. *)
Definition reachable (w : World) : Prop :=
  exists t0 evs, run evs (unmounted t0) = Some w.

Definition by_timer (r : Request) : bool :=
  match req_by r with
  | ByTimer => true
  | _ => false
  end.

(** The fetches the refresh timer has started so far. *)
Definition timer_fetches (w : World) : list Request :=
  filter by_timer (fetch_log w).

(** The events that call [fetchData]. *)
Definition starts_fetch (ev : Event) : bool :=
  match ev with
  | Mount | ClickRefresh | ClickRetry | TimerFires _ => true
  | _ => false
  end.

(** A request settling with anything but a [success: true] body. *)
Definition is_failure (ev : Event) : bool :=
  match ev with
  | Settle _ (Fulfilled b) => negb (success b)
  | Settle _ (Rejected _) => true
  | _ => false
  end.

(** The payload of the event when it is a successful response. *)
Definition payload_of (ev : Event) : option Snapshot :=
  match ev with
  | Settle _ (Fulfilled b) => if success b then Some b else None
  | _ => None
  end.

(** The payload of the last successful response in a trace, if any. *)
Fixpoint last_success (acc : option Snapshot) (evs : list Event)
  : option Snapshot :=
  match evs with
  | [] => acc
  | ev :: rest =>
      last_success (match payload_of ev with Some b => Some b | None => acc end)
                   rest
  end.

End Lifecycle.

(* ------------------------------------------------------------------ *)
(** ** Vocabulary for statements about rendered text *)

Module Text.
Import JSNumber.

Definition first_char (s : string) : option ascii :=
  match s with
  | EmptyString => None
  | String c _ => Some c
  end.

Fixpoint last_char (s : string) : option ascii :=
  match s with
  | EmptyString => None
  | String c EmptyString => Some c
  | String _ rest => last_char rest
  end.

(** [s] is some text followed by [suffix]. *)
Definition ends_with (suffix s : string) : Prop :=
  exists body, s = body ++ suffix.

(** The last character is one of the scale letters of [formatNumber]. *)
Definition has_scale_suffix (s : string) : bool :=
  match last_char s with
  | Some c => Ascii.eqb c "B" || Ascii.eqb c "M" || Ascii.eqb c "K"
  | None => false
  end.

Fixpoint all_digits (s : string) : bool :=
  match s with
  | EmptyString => true
  | String c rest => is_digit c && all_digits rest
  end.

End Text.

(* ------------------------------------------------------------------ *)
(** ** Sample responses and executions *)

Module Samples.
Import JSNumber Api Dashboard Lifecycle.

(** The body [{"success": true, "total_markets": 0, "filtered_markets": 0,
    "markets": []}]. *)
Definition empty_ok : Snapshot :=
  {| success := true; error_field := None; total_markets := Some 0%Z;
     filtered_markets := Some 0%Z; highest_funding_rate := None;
     markets := Some [] |}.

Definition btc : MarketRow :=
  {| symbol := "BTC"; mark_price := of_Z 64250;
     funding_rate := decimal 6 4; open_interest := of_Z 2500000000;
     day_volume := of_Z 870000000; price_change_24h := decimal 15 1;
     premium := decimal 2 4 |}.

Definition one_market : Snapshot :=
  {| success := true; error_field := None; total_markets := Some 180%Z;
     filtered_markets := Some 1%Z;
     highest_funding_rate :=
       Some {| hf_symbol := "BTC"; hf_funding_rate := decimal 6 4 |};
     markets := Some [btc] |}.

(** What axios throws when the server cannot be reached. *)
Definition network_error : Thrown :=
  {| detail := None; message := Some "Network Error" |}.

(** The first request is still awaited when the timer starts a second one;
    the second one fails. *)
Definition failure_during_flight : list Event :=
  [Mount; Elapse 30000; TimerFires 0; Settle 1 (Rejected network_error)].

(** A timer-started request is still awaited when the timer starts the
    next one; the later one is answered first. *)
Definition success_during_flight : list Event :=
  [Mount; Settle 0 (Fulfilled empty_ok); Elapse 30000; TimerFires 0;
   Elapse 30000; TimerFires 0; Settle 2 (Fulfilled one_market)].

(** Mounted, first response shown, nothing in flight. *)
Definition first_load : list Event :=
  [Mount; Elapse 250; Settle 0 (Fulfilled one_market)].

(** Mounted, the first request rejected. *)
Definition first_failure : list Event :=
  [Mount; Elapse 250; Settle 0 (Rejected network_error)].

(** The body [{"success": true}]: no [markets] field at all. *)
Definition bare_ok : Snapshot :=
  {| success := true; error_field := None; total_markets := None;
     filtered_markets := None; highest_funding_rate := None;
     markets := None |}.

(** The body [{"success": false, "error": "Upstream timeout"}]. *)
Definition refused : Snapshot :=
  {| success := false; error_field := Some "Upstream timeout";
     total_markets := None; filtered_markets := None;
     highest_funding_rate := None; markets := None |}.

(** A thrown error whose response carries an empty [detail]. *)
Definition timed_out : Thrown :=
  {| detail := Some ""; message := Some "timeout exceeded" |}.

(** Auto-refresh switched off after the first response. *)
Definition switched_off : list Event :=
  [Mount; Elapse 250; Settle 0 (Fulfilled one_market); ClickAuto].

End Samples.

(* ------------------------------------------------------------------ *)
(** ** Vocabulary for statements about states, screens and timers *)

Module Observed.
Import JSNumber Api Dashboard Render Lifecycle.

(** Finite values below [10^21] in magnitude, the range where [toFixed]
    writes fixed-point notation. *)
Definition fixed_range (x : number) : bool :=
  match x with
  | S754_zero _ => true
  | S754_finite _ m e => negb (at_least_1e21 m e)
  | _ => false
  end.

(** A text that is missing or empty, which [||] passes over. *)
Definition blank (a : option string) : Prop := a = None \/ a = Some "".

(** The four badge variants from weakest to strongest signal. *)
Definition badge_rank (variant : string) : nat :=
  if String.eqb variant "success" then 3
  else if String.eqb variant "warning" then 2
  else if String.eqb variant "secondary" then 1
  else 0.

(** The screen as a function of [error] and [data] alone. *)
Definition screen_of (v : ViewState) : Screen :=
  match error v with
  | Some msg => ErrorScreen msg
  | None =>
      match data v with
      | None => LoadingScreen
      | Some _ => MainScreen (main_view v)
      end
  end.

(** How the state cells hang together in a running component. *)
Record coherent (w : World) : Prop := {
  error_settled :
    forall msg, error (view w) = Some msg ->
                msg <> "" /\ loading (view w) = false;
  no_data_explained :
    data (view w) = None ->
    loading (view w) = true \/ error (view w) <> None;
  stamp_with_data :
    lastUpdated (view w) = None <-> data (view w) = None;
  stamp_in_past :
    forall t, lastUpdated (view w) = Some t -> (t <= clock w)%N;
  loading_awaits :
    mounted w = true -> loading (view w) = true ->
    existsb (is_request (pred (next_request w))) (in_flight w) = true
}.

(** Every pending tick lies between now and one period from now. *)
Definition tick_window (w : World) : Prop :=
  Forall (fun t => (clock w <= due t)%N /\ (due t <= clock w + period)%N)
         (timers w).

End Observed.

(* ------------------------------------------------------------------ *)
(** ** Order facts on binary64 values *)

Module NumberFacts.
Import JSNumber.

Ltac order_cases :=
  intros;
  change (@PosDef.Pos.compare_cont Eq) with Pos.compare in *;
  repeat match goal with
         | H : context [Z.compare ?a ?b] |- _ =>
             destruct (Z.compare_spec a b); subst
         | |- context [Z.compare ?a ?b] =>
             destruct (Z.compare_spec a b); subst
         | H : context [Pos.compare ?a ?b] |- _ =>
             destruct (Pos.compare_spec a b); subst
         | |- context [Pos.compare ?a ?b] =>
             destruct (Pos.compare_spec a b); subst
         end;
  simpl in *; try discriminate; try reflexivity; try lia.

(** [<] is transitive; no comparison involving NaN holds, so NaN never
    enters the chain. *)
Lemma SFltb_trans (x y z : number) :
  SFltb x y = true -> SFltb y z = true -> SFltb x z = true.
Proof.
  unfold SFltb, SFcompare.
  destruct x as [sx|sx| |sx mx ex], y as [sy|sy| |sy my ey],
           z as [sz|sz| |sz mz ez];
    try destruct sx; try destruct sy; try destruct sz;
    simpl; try discriminate; try reflexivity;
    order_cases.
Qed.

(** [x < y] excludes [y <= x]. *)
Lemma SFltb_not_leb (x y : number) :
  SFltb x y = true -> SFleb y x = false.
Proof.
  unfold SFleb, SFltb, SFcompare.
  destruct x as [sx|sx| |sx mx ex], y as [sy|sy| |sy my ey];
    try destruct sx; try destruct sy;
    simpl; try discriminate; try reflexivity;
    order_cases.
Qed.

Lemma SFltb_asym (x y : number) :
  SFltb x y = true -> SFltb y x = false.
Proof.
  unfold SFltb, SFcompare.
  destruct x as [sx|sx| |sx mx ex], y as [sy|sy| |sy my ey];
    try destruct sx; try destruct sy;
    simpl; try discriminate; try reflexivity;
    order_cases.
Qed.

End NumberFacts.

(* ------------------------------------------------------------------ *)
(** ** Shape of the text [toFixed] produces *)

Module TextFacts.
Import JSNumber Text.

Lemma last_char_append (s t : string) :
  t <> "" -> last_char (s ++ t) = last_char t.
Proof.
  intros Ht. induction s as [|c s IH]; simpl; [reflexivity|].
  rewrite IH. destruct (s ++ t) eqn:E; [|reflexivity].
  destruct s; simpl in E; [contradiction | discriminate].
Qed.

Lemma first_char_append (s t : string) :
  s <> "" -> first_char (s ++ t) = first_char s.
Proof. destruct s; simpl; [contradiction | reflexivity]. Qed.

Lemma length_append (s t : string) :
  String.length (s ++ t) = (String.length s + String.length t)%nat.
Proof. induction s; simpl; [reflexivity | now rewrite IHs]. Qed.

Lemma all_digits_append (s t : string) :
  all_digits (s ++ t) = all_digits s && all_digits t.
Proof.
  induction s as [|c s IH]; simpl; [reflexivity|].
  now rewrite IH, andb_assoc.
Qed.

Lemma all_digits_zeros (k : nat) : all_digits (zeros k) = true.
Proof. induction k; simpl; [reflexivity | assumption]. Qed.

Lemma length_zeros (k : nat) : String.length (zeros k) = k.
Proof. induction k; simpl; [reflexivity | now rewrite IHk]. Qed.

Lemma all_digits_substring (s : string) :
  all_digits s = true -> forall n m, all_digits (substring n m s) = true.
Proof.
  induction s as [|c s IH]; intros H n m.
  - destruct n, m; reflexivity.
  - simpl in H. apply andb_true_iff in H as [Hc Hs].
    destruct n as [|n]; simpl.
    + destruct m as [|m]; simpl; [reflexivity|].
      now rewrite Hc, (IH Hs 0%nat m).
    + apply IH, Hs.
Qed.

Lemma length_substring (s : string) :
  forall n m, (n + m <= String.length s)%nat ->
  String.length (substring n m s) = m.
Proof.
  induction s as [|c s IH]; intros n m H; simpl in H.
  - assert (n = 0%nat) by lia. assert (m = 0%nat) by lia. now subst.
  - destruct n as [|n]; simpl.
    + destruct m as [|m]; simpl; [reflexivity|].
      rewrite (IH 0%nat m); [reflexivity | simpl; lia].
    + apply IH. lia.
Qed.

Lemma all_digits_last (s : string) :
  all_digits s = true -> s <> "" ->
  exists c, last_char s = Some c /\ is_digit c = true.
Proof.
  induction s as [|c s IH]; intros H Hne; [contradiction|].
  simpl in H. apply andb_true_iff in H as [Hc Hs].
  destruct s as [|c' s'].
  - exists c. now split.
  - destruct (IH Hs) as [d [Hd1 Hd2]]; [discriminate|].
    exists d. split; [exact Hd1 | exact Hd2].
Qed.

Lemma all_digits_first (s : string) :
  all_digits s = true -> s <> "" ->
  exists c, first_char s = Some c /\ is_digit c = true.
Proof.
  destruct s as [|c s]; intros H Hne; [contradiction|].
  simpl in H. apply andb_true_iff in H as [Hc _].
  exists c. now split.
Qed.

Lemma nonempty_length (s : string) : (0 < String.length s)%nat -> s <> "".
Proof. destruct s; simpl; [lia | discriminate]. Qed.

Lemma all_digits_uint (d : Decimal.uint) :
  all_digits (NilEmpty.string_of_uint d) = true.
Proof. induction d; simpl; auto. Qed.

Lemma all_digits_digits (n : N) : all_digits (digits n) = true.
Proof.
  unfold digits, NilZero.string_of_uint.
  destruct (N.to_uint n); try apply all_digits_uint. reflexivity.
Qed.

Lemma digits_nonempty (n : N) : (0 < String.length (digits n))%nat.
Proof.
  unfold digits, NilZero.string_of_uint.
  destruct (N.to_uint n); simpl; lia.
Qed.

(** The text of [fixed_digits]: digits, then for a positive number of
    decimals a point and exactly that many digits. *)
Lemma fixed_digits_shape (n : N) (f : nat) :
  exists a b,
    fixed_digits n f = a ++ b /\ all_digits a = true /\ a <> "" /\
    (b = "" \/
     exists b', b = String "." b' /\ all_digits b' = true /\ b' <> "").
Proof.
  unfold fixed_digits. destruct f as [|f].
  - exists (digits n), "". repeat split.
    + clear. induction (digits n); simpl; [reflexivity | now f_equal].
    + apply all_digits_digits.
    + apply nonempty_length, digits_nonempty.
    + now left.
  - set (m0 := digits n).
    set (m := if (String.length m0 <=? S f)%nat
              then zeros (S (S f) - String.length m0) ++ m0 else m0).
    assert (Hm : all_digits m = true).
    { unfold m. destruct (String.length m0 <=? S f)%nat.
      - rewrite all_digits_append, all_digits_zeros. apply all_digits_digits.
      - apply all_digits_digits. }
    assert (Hk : (S f < String.length m)%nat).
    { unfold m. destruct (Nat.leb_spec (String.length m0) (S f)).
      - rewrite length_append, length_zeros.
        pose proof (digits_nonempty n). fold m0 in H0. lia.
      - lia. }
    exists (substring 0 (String.length m - S f) m),
           (String "." (substring (String.length m - S f) (S f) m)).
    repeat split.
    + now apply all_digits_substring.
    + apply nonempty_length. rewrite length_substring; lia.
    + right. eexists. repeat split.
      * now apply all_digits_substring.
      * apply nonempty_length. rewrite length_substring; lia.
Qed.

Lemma digit_not_letter (c : ascii) :
  is_digit c = true ->
  c <> "B"%char /\ c <> "M"%char /\ c <> "K"%char /\ c <> "+"%char.
Proof.
  intros H. repeat split; intros ->; vm_compute in H; discriminate.
Qed.

Lemma fixed_digits_last (n : N) (f : nat) :
  exists c, last_char (fixed_digits n f) = Some c /\ is_digit c = true.
Proof.
  destruct (fixed_digits_shape n f) as (a & b & -> & Ha & Hne & Hb).
  destruct Hb as [-> | (b' & -> & Hb' & Hne')].
  - replace (a ++ "") with a
      by (clear; induction a; simpl; [reflexivity | now f_equal]).
    now apply all_digits_last.
  - rewrite last_char_append by discriminate.
    destruct (all_digits_last b' Hb' Hne') as (c & Hc & Hd).
    exists c. split; [|exact Hd].
    destruct b'; [contradiction | exact Hc].
Qed.

Lemma fixed_digits_first (n : N) (f : nat) :
  exists c, first_char (fixed_digits n f) = Some c /\ is_digit c = true.
Proof.
  destruct (fixed_digits_shape n f) as (a & b & -> & Ha & Hne & _).
  rewrite first_char_append by exact Hne.
  now apply all_digits_first.
Qed.

Lemma strip_zeros_head (l : list ascii) :
  forall d rest, strip_zeros l = d :: rest -> In d l.
Proof.
  induction l as [|c l IH]; simpl; intros d rest H; [discriminate|].
  destruct (strip_zeros l) as [|c' l'].
  - destruct (Ascii.eqb c "0"); [discriminate|]. injection H as <- _. now left.
  - injection H as <- _. now left.
Qed.

Lemma all_digits_In (s : string) (c : ascii) :
  all_digits s = true -> In c (list_ascii_of_string s) -> is_digit c = true.
Proof.
  induction s as [|a s IH]; simpl; intros H Hin; [contradiction|].
  apply andb_true_iff in H as [Ha Hs].
  destruct Hin as [<- | Hin]; [exact Ha | now apply IH].
Qed.

Lemma exponent_notation_first (m : positive) (e : Z) :
  exists c, first_char (exponent_notation m e) = Some c /\ is_digit c = true.
Proof.
  unfold exponent_notation.
  set (ds := digits _).
  destruct (strip_zeros (list_ascii_of_string ds)) as [|d rest] eqn:E.
  - exists "0"%char. now split.
  - assert (Hd : is_digit d = true).
    { apply (all_digits_In ds); [apply all_digits_digits|].
      eapply strip_zeros_head; exact E. }
    destruct rest; exists d; now split.
Qed.

Lemma exponent_notation_last (m : positive) (e : Z) :
  exists c, last_char (exponent_notation m e) = Some c /\ is_digit c = true.
Proof.
  unfold exponent_notation.
  set (ds := digits _). set (c := N.of_nat _).
  assert (Hc : exists x, last_char (digits c) = Some x /\ is_digit x = true).
  { apply all_digits_last; [apply all_digits_digits|].
    apply nonempty_length, digits_nonempty. }
  assert (Hne : digits c <> "") by apply nonempty_length, digits_nonempty.
  assert (Hne2 : "e+" ++ digits c <> "") by discriminate.
  destruct Hc as (x & Hx & Hd).
  destruct (strip_zeros (list_ascii_of_string ds)) as [|d rest].
  - exists "0"%char. now split.
  - exists x. split; [|exact Hd]. destruct rest as [|r rest].
    + change (String d "e+" ++ digits c) with (String d "" ++ "e+" ++ digits c).
      rewrite last_char_append by exact Hne2.
      change ("e+" ++ digits c) with (String "e" (String "+" (digits c))).
      simpl. destruct (digits c); [contradiction | exact Hx].
    + change (String d "." ++ string_of_list_ascii (r :: rest) ++ "e+" ++ digits c)
        with (String d "." ++ (string_of_list_ascii (r :: rest) ++ "e+" ++ digits c)).
      rewrite last_char_append.
      * rewrite last_char_append by exact Hne2.
        simpl. destruct (digits c); [contradiction | exact Hx].
      * simpl. discriminate.
Qed.

(** [toFixed] never ends in a scale letter: it ends in a digit, or the text
    is ["NaN"], ["Infinity"] or ["-Infinity"]. *)
Lemma toFixed_no_scale_suffix (x : number) (f : nat) :
  has_scale_suffix (toFixed x f) = false.
Proof.
  assert (D : forall s c, last_char s = Some c -> is_digit c = true ->
                          has_scale_suffix s = false).
  { intros s c Hs Hd. unfold has_scale_suffix. rewrite Hs.
    destruct (digit_not_letter c Hd) as (HB & HM & HK & _).
    apply Ascii.eqb_neq in HB, HM, HK. now rewrite HB, HM, HK. }
  destruct x as [s|s| |s m e]; simpl.
  - destruct (fixed_digits_last 0 f) as (c & Hc & Hd). now apply (D _ c).
  - now destruct s.
  - reflexivity.
  - assert (H : exists c,
        last_char (if at_least_1e21 m e then exponent_notation m e
                   else fixed_digits (nearest_scaled m e f) f) = Some c /\
        is_digit c = true).
    { destruct (at_least_1e21 m e);
        [apply exponent_notation_last | apply fixed_digits_last]. }
    destruct H as (c & Hc & Hd).
    apply (D _ c); [|exact Hd].
    rewrite last_char_append; [exact Hc|].
    intros E. rewrite E in Hc. discriminate.
Qed.

(** [toFixed] starts with a digit, a minus sign, or the first letter of
    ["NaN"] or ["Infinity"]; never with a plus sign. *)
Lemma toFixed_first_not_plus (x : number) (f : nat) (rest : string) :
  first_char (toFixed x f ++ rest) <> Some "+"%char.
Proof.
  assert (D : forall s c, first_char s = Some c -> is_digit c = true ->
                          first_char (s ++ rest) <> Some "+"%char).
  { intros s c Hs Hd. destruct s as [|a s]; [discriminate|].
    simpl in *. injection Hs as ->. intros [= ->].
    now destruct (digit_not_letter _ Hd) as (_ & _ & _ & HP). }
  destruct x as [s|s| |s m e]; simpl.
  - destruct (fixed_digits_first 0 f) as (c & Hc & Hd). now apply (D _ c).
  - now destruct s.
  - discriminate.
  - destruct s; [discriminate|]. simpl.
    assert (H : exists c,
        first_char (if at_least_1e21 m e then exponent_notation m e
                    else fixed_digits (nearest_scaled m e f) f) = Some c /\
        is_digit c = true).
    { destruct (at_least_1e21 m e);
        [apply exponent_notation_first | apply fixed_digits_first]. }
    destruct H as (c & Hc & Hd). now apply (D _ c).
Qed.

End TextFacts.

(* ------------------------------------------------------------------ *)
(** ** The badge ladders *)

Module BadgeFacts.
Import JSNumber Dashboard NumberFacts.

(** The thresholds are ordered as their decimal values are. *)
Lemma funding_thresholds_ordered :
  SFltb (neg (decimal 1 4)) (decimal 1 4) = true /\
  SFltb (decimal 1 4) (decimal 5 4) = true.
Proof. split; vm_compute; reflexivity. Qed.

Lemma change_thresholds_ordered :
  SFltb (neg (of_Z 5)) (of_Z 0) = true /\ SFltb (of_Z 0) (of_Z 5) = true.
Proof. split; vm_compute; reflexivity. Qed.

(** A ladder [x > hi], [x > mid], [x < lo] with [lo < mid < hi]: the tests
    exclude one another the way the intervals do. *)
Lemma ladder_tests (lo mid hi x : number) :
  SFltb lo mid = true -> SFltb mid hi = true ->
  (gt x hi = true -> gt x mid = true) /\
  (lt x lo = true -> gt x mid = false).
Proof.
  unfold gt, lt. intros Hlm Hmh. split; intros H.
  - exact (SFltb_trans _ _ _ Hmh H).
  - apply SFltb_asym. exact (SFltb_trans _ _ _ H Hlm).
Qed.

(** Both ladders of the component have this shape; with ordered thresholds
    each of the four answers is given on exactly one interval. *)
Lemma ladder_intervals (lo mid hi x : number) :
  SFltb lo mid = true -> SFltb mid hi = true ->
  let variant :=
    if gt x hi then "success"
    else if gt x mid then "warning"
    else if lt x lo then "destructive"
    else "secondary" in
  (variant = "success" <-> gt x hi = true) /\
  (variant = "warning" <-> gt x mid = true /\ gt x hi = false) /\
  (variant = "destructive" <-> lt x lo = true) /\
  (variant = "secondary" <-> gt x mid = false /\ lt x lo = false).
Proof.
  intros Hlm Hmh.
  destruct (ladder_tests lo mid hi x Hlm Hmh) as [Hup Hdown].
  destruct (gt x hi) eqn:E1.
  - rewrite (Hup eq_refl) in *.
    destruct (lt x lo); [now specialize (Hdown eq_refl)|].
    cbv zeta. intuition congruence.
  - destruct (gt x mid) eqn:E2.
    + destruct (lt x lo); [now specialize (Hdown eq_refl)|].
      cbv zeta. intuition congruence.
    + destruct (lt x lo); cbv zeta; intuition congruence.
Qed.

(** C4: [getFundingBadgeVariant] is the first-match ladder of the
    specification: above 0.0005 it is "success"; otherwise above 0.0001 it
    is "warning"; otherwise below -0.0001 it is "destructive"; otherwise
    "secondary".  Each answer is given exactly on its interval, the rate
    0.0005 itself is "warning" and the rate 0 is "secondary". *)
Theorem funding_badge_ladder (rate : number) :
  getFundingBadgeVariant rate =
    (if gt rate (decimal 5 4) then "success"
     else if gt rate (decimal 1 4) then "warning"
     else if lt rate (neg (decimal 1 4)) then "destructive"
     else "secondary") /\
  (getFundingBadgeVariant rate = "success" <-> gt rate (decimal 5 4) = true) /\
  (getFundingBadgeVariant rate = "warning" <->
     gt rate (decimal 1 4) = true /\ gt rate (decimal 5 4) = false) /\
  (getFundingBadgeVariant rate = "destructive" <->
     lt rate (neg (decimal 1 4)) = true) /\
  (getFundingBadgeVariant rate = "secondary" <->
     gt rate (decimal 1 4) = false /\ lt rate (neg (decimal 1 4)) = false) /\
  getFundingBadgeVariant (decimal 5 4) = "warning" /\
  getFundingBadgeVariant (of_Z 0) = "secondary".
Proof.
  destruct funding_thresholds_ordered as [Hlo Hhi].
  pose proof (ladder_intervals _ _ _ rate Hlo Hhi) as (H1 & H2 & H3 & H4).
  split; [reflexivity|].
  repeat (split; [assumption|]).
  split; vm_compute; reflexivity.
Qed.

(** C7: [getPriceChangeBadgeVariant] is the first-match ladder: above 5 it
    is "success"; otherwise above 0 it is "warning"; otherwise below -5 it
    is "destructive"; otherwise "secondary".  Each answer is given exactly
    on its interval, and a change of 0 is "secondary". *)
Theorem price_change_badge_ladder (pct : number) :
  getPriceChangeBadgeVariant pct =
    (if gt pct (of_Z 5) then "success"
     else if gt pct (of_Z 0) then "warning"
     else if lt pct (neg (of_Z 5)) then "destructive"
     else "secondary") /\
  (getPriceChangeBadgeVariant pct = "success" <-> gt pct (of_Z 5) = true) /\
  (getPriceChangeBadgeVariant pct = "warning" <->
     gt pct (of_Z 0) = true /\ gt pct (of_Z 5) = false) /\
  (getPriceChangeBadgeVariant pct = "destructive" <->
     lt pct (neg (of_Z 5)) = true) /\
  (getPriceChangeBadgeVariant pct = "secondary" <->
     gt pct (of_Z 0) = false /\ lt pct (neg (of_Z 5)) = false) /\
  getPriceChangeBadgeVariant (of_Z 0) = "secondary".
Proof.
  destruct change_thresholds_ordered as [Hlo Hhi].
  pose proof (ladder_intervals _ _ _ pct Hlo Hhi) as (H1 & H2 & H3 & H4).
  split; [reflexivity|].
  repeat (split; [assumption|]).
  vm_compute; reflexivity.
Qed.

End BadgeFacts.

(* ------------------------------------------------------------------ *)
(** ** [formatNumber], [formatPercent] and the 24h-change cell *)

Module FormatFacts.
Import JSNumber Utils Api Dashboard Render Text NumberFacts TextFacts.

Lemma scale_thresholds_ordered :
  SFltb (of_Z (10 ^ 3)) (of_Z (10 ^ 6)) = true /\
  SFltb (of_Z (10 ^ 6)) (of_Z (10 ^ 9)) = true.
Proof. split; vm_compute; reflexivity. Qed.

(** Below a threshold means not at or above it, nor at or above a larger
    one. *)
Lemma below_excludes (x lo hi : number) :
  lt x lo = true ->
  ge x lo = false /\ (SFltb lo hi = true -> ge x hi = false).
Proof.
  unfold lt, ge. intros H. split.
  - now apply SFltb_not_leb.
  - intros Hlh. apply SFltb_not_leb. exact (SFltb_trans _ _ _ H Hlh).
Qed.

(** C5: with the default number of decimals, [formatNumber n] ends in "B"
    when [n >= 1e9], in "M" when [1e6 <= n < 1e9], in "K" when
    [1e3 <= n < 1e6]; when [n < 1e3] it is the plain two-decimal rendering
    of [n] and does not end in any of the three letters.  At the boundary,
    [formatNumber 1000000] is "1.00M". *)
Theorem formatNumber_suffix (n : number) :
  (ge n (of_Z (10 ^ 9)) = true -> ends_with "B" (formatNumber n None)) /\
  (ge n (of_Z (10 ^ 6)) = true -> lt n (of_Z (10 ^ 9)) = true ->
     ends_with "M" (formatNumber n None)) /\
  (ge n (of_Z (10 ^ 3)) = true -> lt n (of_Z (10 ^ 6)) = true ->
     ends_with "K" (formatNumber n None)) /\
  (lt n (of_Z (10 ^ 3)) = true ->
     formatNumber n None = toFixed n 2 /\
     has_scale_suffix (formatNumber n None) = false) /\
  formatNumber (of_Z 1000000) None = "1.00M".
Proof.
  destruct scale_thresholds_ordered as [HKM HMB].
  unfold formatNumber, default_arg.
  set (B := of_Z (10 ^ 9)) in *. set (M := of_Z (10 ^ 6)) in *.
  set (K := of_Z (10 ^ 3)) in *.
  split; [|split; [|split; [|split]]].
  - intros ->. now eexists.
  - intros HM HB. destruct (below_excludes n B B HB) as [-> _].
    rewrite HM. now eexists.
  - intros HK HM. destruct (below_excludes n M B HM) as [-> HB].
    rewrite (HB HMB), HK. now eexists.
  - intros HK. destruct (below_excludes n K M HK) as [-> HM].
    assert (HB : ge n B = false).
    { apply (proj2 (below_excludes n K B HK)).
      exact (SFltb_trans _ _ _ HKM HMB). }
    rewrite (HM HKM), HB. split; [reflexivity|].
    apply toFixed_no_scale_suffix.
  - vm_compute. reflexivity.
Qed.

Lemma formatNumber_suffix_witness :
  ends_with "B" (formatNumber (of_Z 2500000000) None) /\
  ends_with "M" (formatNumber (of_Z 999999999) None) /\
  ends_with "K" (formatNumber (of_Z 1000) None) /\
  formatNumber (decimal 99999 2) None = "999.99".
Proof.
  split; [|split; [|split]].
  - apply (formatNumber_suffix (of_Z 2500000000)). vm_compute. reflexivity.
  - apply (formatNumber_suffix (of_Z 999999999)); vm_compute; reflexivity.
  - apply (formatNumber_suffix (of_Z 1000)); vm_compute; reflexivity.
  - destruct (formatNumber_suffix (decimal 99999 2)) as (_ & _ & _ & H & _).
    destruct H as [H _]; [vm_compute; reflexivity|].
    rewrite H. vm_compute. reflexivity.
Defined.

(** C6: [formatPercent] renders one hundred times its input with the given
    number of decimals (four when omitted) and appends "%";
    [formatPercent 0.0005] is "0.0500%" and [formatPercent (-0.0001) 2] is
    "-0.01%". *)
Theorem formatPercent_scaled (n : number) (decimals : nat) :
  (decimals <= 100)%nat ->
  formatPercent n (Some decimals) =
    toFixed (mul n (of_Z 100)) decimals ++ "%" /\
  formatPercent n None = formatPercent n (Some 4%nat) /\
  formatPercent (decimal 5 4) None = "0.0500%" /\
  formatPercent (neg (decimal 1 4)) (Some 2%nat) = "-0.01%".
Proof.
  intros _. split; [reflexivity|]. split; [reflexivity|].
  split; vm_compute; reflexivity.
Qed.

Lemma formatPercent_scaled_witness :
  (3 <= 100)%nat /\
  formatPercent (decimal 125 4) (Some 3%nat) =
    toFixed (mul (decimal 125 4) (of_Z 100)) 3 ++ "%".
Proof.
  assert (H : (3 <= 100)%nat) by lia.
  split; [exact H|].
  exact (proj1 (formatPercent_scaled (decimal 125 4) 3 H)).
Defined.

Lemma map_from_change_text (ms : list MarketRow) :
  forall i,
    map change_text (map_from render_row i ms) =
    map (fun m => change_cell (price_change_24h m)) ms.
Proof.
  induction ms as [|m ms IH]; intros i; simpl; [reflexivity|].
  now rewrite IH.
Qed.

(** C10: in every rendered market row the 24h-change cell is the sign
    text, the two-decimal rendering of [price_change_24h] itself and "%";
    the cell starts with "+" exactly when [price_change_24h > 0].  The value
    is not scaled by one hundred: a change of 5 shows as "+5.00%" where
    [formatPercent] would give "500.00%"; zero and negative changes carry
    no "+". *)
Theorem change_cell_sign (ms : list MarketRow) (m : MarketRow) (index : nat) :
  map change_text (array_map render_row ms) =
    map (fun r => change_cell (price_change_24h r)) ms /\
  change_text (render_row m index) =
    (if gt (price_change_24h m) (of_Z 0) then "+" else "") ++
    toFixed (price_change_24h m) 2 ++ "%" /\
  (first_char (change_text (render_row m index)) = Some "+"%char <->
   gt (price_change_24h m) (of_Z 0) = true) /\
  change_cell (of_Z 5) = "+5.00%" /\
  formatPercent (of_Z 5) (Some 2%nat) = "500.00%" /\
  change_cell (of_Z 0) = "0.00%" /\
  change_cell (neg (decimal 15 1)) = "-1.50%".
Proof.
  split; [apply map_from_change_text|].
  split; [reflexivity|].
  split.
  - change (change_text (render_row m index))
      with (change_cell (price_change_24h m)).
    unfold change_cell.
    destruct (gt (price_change_24h m) (of_Z 0)).
    + split; reflexivity.
    + split; [|discriminate]. intros H. exfalso.
      exact (toFixed_first_not_plus _ _ _ H).
  - repeat split; vm_compute; reflexivity.
Qed.

End FormatFacts.

(* ------------------------------------------------------------------ *)
(** ** The fetch cycle on the event loop *)

Module LifecycleFacts.
Import Api Dashboard Render Lifecycle.

(** Case analysis on an enabled event: one goal per way [step] succeeds. *)
Ltac step_inv H :=
  unfold step in H;
  repeat match type of H with
         | (if ?c then _ else _) = Some _ =>
             destruct c eqn:?; try discriminate H
         | match ?x with _ => _ end = Some _ =>
             destruct x eqn:?; try discriminate H
         end;
  injection H as H; subst.

Lemma or_str_nonempty (a : option string) (b : string) :
  b <> "" -> Truthy.or_str a b <> "".
Proof.
  intros Hb. unfold Truthy.or_str.
  destruct a as [s|]; [|exact Hb].
  destruct s; simpl; [exact Hb | discriminate].
Qed.

(** What settling does to each cell, by kind of outcome. *)
Lemma fetch_settle_success (now : Time) (b : Snapshot) (v : ViewState) :
  success b = true ->
  fetch_settle now (Fulfilled b) v =
    {| data := Some b; loading := false; error := error v;
       lastUpdated := Some now; autoRefresh := autoRefresh v |}.
Proof. intros H. unfold fetch_settle. now rewrite H. Qed.

Lemma fetch_settle_failure (now : Time) (o : Outcome) (v : ViewState) :
  match o with Fulfilled b => success b = false | Rejected _ => True end ->
  exists msg,
    msg <> "" /\
    fetch_settle now o v =
      {| data := data v; loading := false; error := Some msg;
         lastUpdated := lastUpdated v; autoRefresh := autoRefresh v |}.
Proof.
  intros H. unfold fetch_settle. destruct o as [b | err].
  - rewrite H. eexists. split; [|reflexivity].
    apply or_str_nonempty. discriminate.
  - eexists. split; [|reflexivity].
    apply or_str_nonempty. discriminate.
Qed.

Lemma fetch_settle_autoRefresh (now : Time) (o : Outcome) (v : ViewState) :
  autoRefresh (fetch_settle now o v) = autoRefresh v.
Proof.
  unfold fetch_settle. destruct o as [b | err]; [destruct (success b)|];
    reflexivity.
Qed.

Lemma fetch_settle_data (now : Time) (o : Outcome) (v : ViewState) :
  data (fetch_settle now o v) =
    match payload_of (Settle 0 o) with
    | Some b => Some b
    | None => data v
    end.
Proof.
  unfold fetch_settle. destruct o as [b | err]; simpl;
    [destruct (success b)|]; reflexivity.
Qed.

Lemma refresh_effect_view (w : World) : view (refresh_effect w) = view w.
Proof. unfold refresh_effect. now destruct (autoRefresh (view w)). Qed.

Lemma refresh_effect_clock (w : World) : clock (refresh_effect w) = clock w.
Proof. unfold refresh_effect. now destruct (autoRefresh (view w)). Qed.

(** The clock never runs backwards. *)
Lemma step_clock (ev : Event) (w w' : World) :
  step ev w = Some w' -> (clock w <= clock w')%N.
Proof.
  intros H. destruct ev; step_inv H;
    rewrite ?refresh_effect_clock; simpl; lia.
Qed.

Lemma run_clock (evs : list Event) :
  forall w w', run evs w = Some w' -> (clock w <= clock w')%N.
Proof.
  induction evs as [|ev evs IH]; simpl; intros w w' H.
  - injection H as <-. lia.
  - destruct (step ev w) as [w1|] eqn:E; [|discriminate].
    apply step_clock in E. apply IH in H. lia.
Qed.

(** Only a successful response writes [data], and it writes the payload. *)
Lemma step_data (ev : Event) (w w' : World) :
  step ev w = Some w' ->
  data (view w') =
    match payload_of ev with
    | Some b => Some b
    | None => data (view w)
    end.
Proof.
  intros H. destruct ev; step_inv H;
    rewrite ?refresh_effect_view; try reflexivity.
  simpl view. apply fetch_settle_data.
Qed.

Lemma run_data (evs : list Event) :
  forall w w', run evs w = Some w' ->
  data (view w') = last_success (data (view w)) evs.
Proof.
  induction evs as [|ev evs IH]; simpl; intros w w' H.
  - now injection H as <-.
  - destruct (step ev w) as [w1|] eqn:E; [|discriminate].
    rewrite (IH _ _ H), (step_data _ _ _ E).
    now destruct (payload_of ev).
Qed.

Lemma last_success_some (evs : list Event) :
  forall acc, acc <> None -> last_success acc evs <> None.
Proof.
  induction evs as [|ev evs IH]; simpl; intros acc H; [exact H|].
  apply IH. destruct (payload_of ev); [discriminate | exact H].
Qed.

Lemma last_success_none (evs : list Event) :
  Forall (fun ev => payload_of ev = None) evs ->
  forall acc, last_success acc evs = acc.
Proof.
  induction 1 as [|ev evs Hev _ IH]; simpl; intros acc; [reflexivity|].
  now rewrite Hev, IH.
Qed.

(** A call of [fetchData] leaves no error behind, and nothing but a failed
    request sets one. *)
Lemma step_begin_error (ev : Event) (w w' : World) :
  starts_fetch ev = true -> step ev w = Some w' -> error (view w') = None.
Proof.
  intros Hs H. destruct ev; try discriminate Hs; step_inv H;
    rewrite ?refresh_effect_view; reflexivity.
Qed.

Lemma step_error (ev : Event) (w w' : World) :
  is_failure ev = false -> step ev w = Some w' ->
  error (view w) = None -> error (view w') = None.
Proof.
  intros Hf H He. destruct ev; step_inv H;
    rewrite ?refresh_effect_view; try reflexivity; try exact He.
  simpl view. destruct o as [b | err]; [|discriminate Hf].
  simpl in Hf. apply negb_false_iff in Hf.
  now rewrite (fetch_settle_success _ _ _ Hf).
Qed.

Lemma run_error (evs : list Event) :
  forall w w', forallb (fun ev => negb (is_failure ev)) evs = true ->
  run evs w = Some w' ->
  error (view w) = None -> error (view w') = None.
Proof.
  induction evs as [|ev evs IH]; simpl; intros w w' Hf H He.
  - now injection H as <-.
  - apply andb_true_iff in Hf as [Hev Hf].
    apply negb_true_iff in Hev.
    destruct (step ev w) as [w1|] eqn:E; [|discriminate].
    exact (IH _ _ Hf H (step_error _ _ _ Hev E He)).
Qed.

(** The request a fetch-starting event creates. *)
Lemma step_begin_request (ev : Event) (w w' : World) :
  starts_fetch ev = true -> step ev w = Some w' ->
  exists r, In r (in_flight w') /\ req_id r = next_request w /\
            req_started r = clock w /\ data (view w') = data (view w).
Proof.
  intros Hs H. destruct ev; try discriminate Hs; step_inv H;
    rewrite ?refresh_effect_view;
    match goal with
    | |- context [begin_fetch ?who ?w0] =>
        exists {| req_id := next_request w0; req_started := clock w0;
                  req_by := who |}
    end;
    (split; [|repeat split]);
    unfold refresh_effect; try destruct (autoRefresh _); simpl; left;
    reflexivity.
Qed.

(** Counterexample to C2 as stated: request 0 receives a [success: true]
    body, yet the state it leaves holds the error of request 1, which
    failed while request 0 was awaited. *)
Lemma success_keeps_other_error :
  exists w2 w3,
    run Samples.failure_during_flight (unmounted 0) = Some w2 /\
    step (Settle 0 (Fulfilled Samples.empty_ok)) w2 = Some w3 /\
    success Samples.empty_ok = true /\
    data (view w3) = Some Samples.empty_ok /\
    error (view w3) = Some "Network Error" /\
    error (view w3) <> None.
Proof.
  eexists. eexists.
  split; [vm_compute; reflexivity|].
  split; [vm_compute; reflexivity|].
  repeat split. discriminate.
Qed.

(** C2, amended: an invocation of [fetchData], started by [ev0], whose
    response has [success = true] leaves [data] equal to the payload,
    [loading = false] and [lastUpdated] at the time the response was
    handled, which is not before the start of the invocation; [error] is
    none provided no other request settled with a failure while this one
    was in flight. *)
Theorem fetch_success_postcondition
  (w0 w1 w2 w3 : World) (ev0 : Event) (evs : list Event) (b : Snapshot) :
  starts_fetch ev0 = true ->
  step ev0 w0 = Some w1 ->
  run evs w1 = Some w2 ->
  step (Settle (next_request w0) (Fulfilled b)) w2 = Some w3 ->
  success b = true ->
  data (view w3) = Some b /\
  loading (view w3) = false /\
  lastUpdated (view w3) = Some (clock w2) /\
  (clock w0 <= clock w2)%N /\
  (forallb (fun ev => negb (is_failure ev)) evs = true ->
   error (view w3) = None).
Proof.
  intros Hs H0 Hrun H3 Hb.
  assert (Hclock : (clock w0 <= clock w2)%N).
  { apply step_clock in H0. apply run_clock in Hrun. lia. }
  assert (He : forallb (fun ev => negb (is_failure ev)) evs = true ->
               error (view w2) = None).
  { intros Hf. eapply run_error; eauto using step_begin_error. }
  step_inv H3. simpl view.
  rewrite (fetch_settle_success _ _ _ Hb). simpl.
  repeat split; assumption.
Qed.

Lemma fetch_success_postcondition_witness :
  exists w3,
    step (Settle 0 (Fulfilled Samples.one_market))
         (with_clock 250 (refresh_effect
                            (begin_fetch ByMount (with_mounted (unmounted 0)))))
      = Some w3 /\
    data (view w3) = Some Samples.one_market /\
    loading (view w3) = false /\
    lastUpdated (view w3) = Some 250%N /\
    error (view w3) = None.
Proof.
  eexists. split; [vm_compute; reflexivity|].
  destruct (fetch_success_postcondition
              (unmounted 0) _ _ _ Mount [Elapse 250] Samples.one_market
              eq_refl eq_refl eq_refl eq_refl eq_refl)
    as (Hd & Hl & Ht & _ & He).
  split; [exact Hd|]. split; [exact Hl|]. split; [exact Ht|].
  exact (He eq_refl).
Defined.

(** Counterexample to C3 as stated: request 1 is rejected, and [data] after
    it is not the [data] from before it, because request 2 was answered
    while request 1 was awaited. *)
Lemma failure_sees_newer_data :
  exists w0 w1 w2 w3,
    run [Mount; Settle 0 (Fulfilled Samples.empty_ok); Elapse 30000]
        (unmounted 0) = Some w0 /\
    step (TimerFires 0) w0 = Some w1 /\
    next_request w0 = 1%nat /\
    run [Elapse 30000; TimerFires 0; Settle 2 (Fulfilled Samples.one_market)]
        w1 = Some w2 /\
    step (Settle 1 (Rejected Samples.network_error)) w2 = Some w3 /\
    data (view w0) = Some Samples.empty_ok /\
    data (view w3) = Some Samples.one_market /\
    data (view w3) <> data (view w0).
Proof.
  do 4 eexists.
  split; [vm_compute; reflexivity|].
  split; [vm_compute; reflexivity|].
  split; [reflexivity|].
  split; [vm_compute; reflexivity|].
  split; [vm_compute; reflexivity|].
  repeat split. discriminate.
Qed.

(** C3, amended: an invocation of [fetchData], started by [ev0], that
    throws or is rejected sets [error] to a non-empty string and leaves
    [loading = false]; it does not write [data], which after the invocation
    is what it was when the failure was handled, and is what it was before
    the invocation provided no other request received a [success: true]
    response while this one was in flight. *)
Theorem fetch_failure_postcondition
  (w0 w1 w2 w3 : World) (ev0 : Event) (evs : list Event) (err : Thrown) :
  starts_fetch ev0 = true ->
  step ev0 w0 = Some w1 ->
  run evs w1 = Some w2 ->
  step (Settle (next_request w0) (Rejected err)) w2 = Some w3 ->
  (exists msg, error (view w3) = Some msg /\ msg <> "") /\
  loading (view w3) = false /\
  data (view w1) = data (view w0) /\
  data (view w3) = data (view w2) /\
  (Forall (fun ev => payload_of ev = None) evs ->
   data (view w3) = data (view w0)).
Proof.
  intros Hs H0 Hrun H3.
  destruct (step_begin_request _ _ _ Hs H0) as (_ & _ & _ & _ & Hd1).
  pose proof (run_data _ _ _ Hrun) as Hd2.
  step_inv H3. simpl view.
  destruct (fetch_settle_failure (clock w2) (Rejected err) (view w2) I)
    as (msg & Hmsg & ->). simpl.
  split; [now exists msg|].
  repeat split; try assumption.
  intros Hnone. now rewrite Hd2, (last_success_none _ Hnone), Hd1.
Qed.

Lemma fetch_failure_postcondition_witness :
  exists w3,
    step (Settle 0 (Rejected Samples.network_error))
         (with_clock 250 (refresh_effect
                            (begin_fetch ByMount (with_mounted (unmounted 0)))))
      = Some w3 /\
    error (view w3) = Some "Network Error" /\
    loading (view w3) = false /\
    data (view w3) = None.
Proof.
  eexists. split; [vm_compute; reflexivity|].
  destruct (fetch_failure_postcondition
              (unmounted 0) _ _ _ Mount [Elapse 250] Samples.network_error
              eq_refl eq_refl eq_refl eq_refl)
    as (_ & Hl & _ & _ & Hd).
  split; [reflexivity|]. split; [exact Hl|].
  assert (Hn : Forall (fun ev => payload_of ev = None) [Elapse 250])
    by (repeat constructor).
  exact (Hd Hn).
Defined.

(** C9: along every execution from the mount, [data] is the payload of the
    last [success: true] response handled so far, whole, and none when
    there has been no such response; no event turns a present [data] into
    none, and an event that changes [data] is a successful response whose
    payload becomes the new [data]. *)
Theorem data_is_last_success (t0 : Time) (evs : list Event) (w : World) :
  run evs (unmounted t0) = Some w ->
  data (view w) = last_success None evs /\
  (Forall (fun ev => payload_of ev = None) evs -> data (view w) = None) /\
  (forall evs' w', run evs' w = Some w' ->
     data (view w) <> None -> data (view w') <> None) /\
  (forall ev w', step ev w = Some w' ->
     data (view w') = data (view w) \/
     exists id b, ev = Settle id (Fulfilled b) /\ success b = true /\
                  data (view w') = Some b).
Proof.
  intros Hrun. pose proof (run_data _ _ _ Hrun) as Hd. simpl in Hd.
  split; [exact Hd|]. split; [|split].
  - intros Hnone. now rewrite Hd, (last_success_none _ Hnone).
  - intros evs' w' Hrun' Hsome.
    rewrite (run_data _ _ _ Hrun'). now apply last_success_some.
  - intros ev w' Hstep. rewrite (step_data _ _ _ Hstep).
    destruct ev; simpl; try (now left).
    destruct o as [b | err]; simpl; [|now left].
    destruct (success b) eqn:Hb; [|now left].
    right. now exists id, b.
Qed.

Lemma data_is_last_success_witness :
  exists w,
    run Samples.first_load (unmounted 0) = Some w /\
    data (view w) = Some Samples.one_market.
Proof.
  eexists. split; [vm_compute; reflexivity|].
  exact (proj1 (data_is_last_success 0 Samples.first_load _ eq_refl)).
Defined.

End LifecycleFacts.

(* ------------------------------------------------------------------ *)
(** ** The auto-refresh timer *)

Module SchedulerFacts.
Import Api Dashboard Render Lifecycle LifecycleFacts.

Lemma clearInterval_own (id : nat) (d : Time) :
  clearInterval id [{| timer_id := id; due := d |}] = [].
Proof. unfold clearInterval. simpl. now rewrite Nat.eqb_refl. Qed.

Lemma refresh_effect_discipline (w : World) :
  mounted w = true ->
  (timers w = [] /\ effect_cleanup w = None \/
   exists id d, timers w = [{| timer_id := id; due := d |}] /\
                effect_cleanup w = Some id) ->
  timer_discipline (refresh_effect w).
Proof.
  intros Hm H. unfold timer_discipline, refresh_effect.
  destruct (autoRefresh (view w)) eqn:Ha; simpl; rewrite Hm, ?Ha; simpl.
  - destruct H as [[-> ->] | (id & d & -> & ->)].
    + now eexists _, _.
    + rewrite clearInterval_own. now eexists _, _.
  - destruct H as [[-> ->] | (id & d & -> & ->)].
    + now split.
    + rewrite clearInterval_own. now split.
Qed.

Lemma discipline_cases (w : World) :
  timer_discipline w ->
  timers w = [] /\ effect_cleanup w = None \/
  exists id d, timers w = [{| timer_id := id; due := d |}] /\
               effect_cleanup w = Some id.
Proof.
  unfold timer_discipline.
  destruct (mounted w && autoRefresh (view w)); [|now left].
  intros (id & d & H1 & H2). right. now exists id, d.
Qed.

(** Every event keeps the discipline: the effect clears its own timer
    before it sets the next one. *)
Lemma step_discipline (ev : Event) (w w' : World) :
  timer_discipline w -> step ev w = Some w' -> timer_discipline w'.
Proof.
  intros Hinv H. destruct ev; step_inv H.
  - apply refresh_effect_discipline; [reflexivity|].
    simpl. unfold timer_discipline in Hinv.
    rewrite Heqb in Hinv. simpl in Hinv. now left.
  - exact Hinv.
  - exact Hinv.
  - apply refresh_effect_discipline; [assumption|].
    simpl. now apply discipline_cases.
  - exact Hinv.
  - apply andb_true_iff in Heqb as [Hm Hdue].
    unfold timer_discipline in *. simpl. rewrite Hm in *. simpl in *.
    destruct (autoRefresh (view w)).
    + destruct Hinv as (i & d & -> & ->). simpl.
      unfold reschedule. simpl. destruct (Nat.eqb i id); now eexists _, _.
    + destruct Hinv as [-> ->]. now split.
  - apply andb_true_iff in Heqb as [Hm _].
    unfold timer_discipline, with_view, with_in_flight in *.
    cbn [mounted view timers effect_cleanup].
    now rewrite fetch_settle_autoRefresh.
Qed.

Lemma reachable_discipline (w : World) : reachable w -> timer_discipline w.
Proof.
  intros (t0 & evs & Hrun).
  assert (G : forall evs w0 w1, timer_discipline w0 ->
                                run evs w0 = Some w1 -> timer_discipline w1).
  { clear. induction evs as [|ev evs IH]; simpl; intros w0 w1 H0 H.
    - now injection H as <-.
    - destruct (step ev w0) as [w'|] eqn:E; [|discriminate].
      eauto using step_discipline. }
  apply (G evs (unmounted t0)); [|exact Hrun].
  unfold timer_discipline. simpl. now split.
Qed.

(** With no timer set and the toggle left alone, no timer appears and the
    timer starts no fetch. *)
Lemma quiet_step (ev : Event) (w w' : World) :
  mounted w = true -> timers w = [] -> ev <> ClickAuto ->
  step ev w = Some w' ->
  mounted w' = true /\ timers w' = [] /\ timer_fetches w' = timer_fetches w.
Proof.
  intros Hm Ht Hev H. destruct ev; try contradiction; step_inv H;
    try (simpl; now repeat split); try congruence.
  rewrite Ht in Heqb. rewrite andb_false_r in Heqb. discriminate.
Qed.

Lemma quiet_run (evs : list Event) :
  forall w w',
    mounted w = true -> timers w = [] ->
    Forall (fun ev => ev <> ClickAuto) evs ->
    run evs w = Some w' ->
    timers w' = [] /\ timer_fetches w' = timer_fetches w.
Proof.
  induction evs as [|ev evs IH]; simpl; intros w w' Hm Ht Hall H.
  - injection H as <-. now split.
  - inversion Hall as [|? ? Hev Hrest]; subst.
    destruct (step ev w) as [w1|] eqn:E; [|discriminate].
    destruct (quiet_step _ _ _ Hm Ht Hev E) as (Hm1 & Ht1 & Hf1).
    destruct (IH _ _ Hm1 Ht1 Hrest H) as [Ht2 Hf2].
    split; [exact Ht2 | congruence].
Qed.

(** C8: in every reachable world at most one interval timer is set.  When
    auto-refresh is on, one timer is pending, and switching it off clears
    it: afterwards no timer is set, none can fire, time passes any boundary
    without a timer-started fetch, and this remains so until the toggle is
    used again. *)
Theorem toggle_off_cancels_timer (w : World) :
  reachable w ->
  (List.length (timers w) <= 1)%nat /\
  (forall w',
     autoRefresh (view w) = true -> step ClickAuto w = Some w' ->
     (exists id d, timers w = [{| timer_id := id; due := d |}]) /\
     autoRefresh (view w') = false /\
     timers w' = [] /\
     (forall id, step (TimerFires id) w' = None) /\
     (forall d, exists w'',
        step (Elapse d) w' = Some w'' /\ clock w'' = (clock w' + d)%N /\
        timer_fetches w'' = timer_fetches w') /\
     (forall evs w'',
        Forall (fun ev => ev <> ClickAuto) evs -> run evs w' = Some w'' ->
        timers w'' = [] /\ timer_fetches w'' = timer_fetches w')).
Proof.
  intros Hreach. pose proof (reachable_discipline w Hreach) as Hinv.
  split.
  - destruct (discipline_cases w Hinv) as [[-> _] | (id & d & -> & _)];
      simpl; lia.
  - intros w' Hon Hclick.
    pose proof (step_discipline _ _ _ Hinv Hclick) as Hinv'.
    assert (Hm : mounted w = true).
    { unfold step in Hclick. destruct (mounted w); [reflexivity | discriminate]. }
    assert (Hview : view w' = setAutoRefresh false (view w) /\ mounted w' = true).
    { step_inv Hclick. rewrite refresh_effect_view. simpl.
      rewrite Hon. split; [reflexivity|].
      unfold refresh_effect. simpl. assumption. }
    destruct Hview as [Hview Hm'].
    assert (Ht' : timers w' = []).
    { unfold timer_discipline in Hinv'. rewrite Hm', Hview in Hinv'.
      simpl in Hinv'. tauto. }
    split.
    { unfold timer_discipline in Hinv. rewrite Hm, Hon in Hinv. simpl in Hinv.
      destruct Hinv as (id & d & H1 & _). now exists id, d. }
    split; [now rewrite Hview|].
    split; [exact Ht'|].
    split; [|split].
    + intros id. unfold step. rewrite Ht'. simpl. now rewrite andb_false_r.
    + intros d. unfold step. rewrite Hm', Ht'. simpl.
      eexists. split; [reflexivity|]. now split.
    + intros evs w'' Hall Hrun. exact (quiet_run _ _ _ Hm' Ht' Hall Hrun).
Qed.

Lemma toggle_off_cancels_timer_witness :
  exists w w',
    run Samples.first_load (unmounted 0) = Some w /\
    autoRefresh (view w) = true /\
    step ClickAuto w = Some w' /\
    timers w = [{| timer_id := 0; due := 30000 |}] /\
    timers w' = [] /\
    step (TimerFires 0) w' = None.
Proof.
  eexists. eexists.
  split; [vm_compute; reflexivity|].
  split; [reflexivity|].
  split; [vm_compute; reflexivity|].
  split; [reflexivity|].
  match goal with
  | |- timers ?w' = [] /\ _ =>
      destruct (toggle_off_cancels_timer
                  _ (ex_intro _ 0%N (ex_intro _ Samples.first_load eq_refl)))
        as [_ H];
      destruct (H w' eq_refl eq_refl) as (_ & _ & Ht & Hfire & _)
  end.
  split; [exact Ht | exact (Hfire 0%nat)].
Defined.

End SchedulerFacts.

(* ------------------------------------------------------------------ *)
(** ** The markets table *)

Module RenderFacts.
Import Api Dashboard Render.

(** The placeholder row is chosen exactly when there is no snapshot or the
    snapshot has no [markets] field. *)
Lemma table_body_placeholder (d : option Snapshot) :
  table_body d = PlaceholderRow no_markets_text <->
  d = None \/ exists s, d = Some s /\ markets s = None.
Proof.
  unfold table_body, or_child, mapped_markets.
  destruct d as [s|]; [|intuition].
  destruct (markets s) as [ms|] eqn:E; simpl.
  - split; [discriminate|].
    intros [H | (s' & H & H')]; [discriminate|].
    injection H as <-. congruence.
  - split; [|reflexivity]. intros _. right. now exists s.
Qed.

(** C1 on the code: after a fetch that receives a [success: true] snapshot
    whose [markets] is the empty list, the component shows the main
    screen, not the error screen, and the table body is the empty array of
    rows: the "No markets found" placeholder row is not rendered. *)
Theorem empty_markets_no_placeholder
  (v : ViewState) (start latency : Time) (b : Snapshot) :
  success b = true ->
  markets b = Some [] ->
  let v' := fetchData start latency (Fulfilled b) v in
  render v' = MainScreen (main_view v') /\
  is_error_screen (render v') = false /\
  body (main_view v') = RowArray [] /\
  shows_placeholder (render v') = false.
Proof.
  intros Hs Hm v'.
  assert (Hr : render v' = MainScreen (main_view v')).
  { unfold v', fetchData, fetch_settle, render. rewrite Hs. reflexivity. }
  assert (Hb : body (main_view v') = RowArray []).
  { unfold v', fetchData, fetch_settle. rewrite Hs.
    cbn [main_view body data setLoading setLastUpdated setData].
    unfold table_body, mapped_markets. now rewrite Hm. }
  rewrite Hr. cbn [is_error_screen shows_placeholder]. rewrite Hb.
  now repeat split.
Qed.

Lemma empty_markets_no_placeholder_witness :
  shows_placeholder
    (render (fetchData 0 120 (Fulfilled Samples.empty_ok) initial_view))
  = false.
Proof.
  exact (proj2 (proj2 (proj2
           (empty_markets_no_placeholder
              initial_view 0 120 Samples.empty_ok eq_refl eq_refl)))).
Defined.

End RenderFacts.

(* ------------------------------------------------------------------ *)
(** ** How the state cells hang together *)

Module StateFacts.
Import Api Dashboard Render Lifecycle Observed LifecycleFacts.

Lemma unmounted_coherent (t0 : Time) : coherent (unmounted t0).
Proof.
  split; simpl; try discriminate; auto; now split.
Qed.

(** A call of [fetchData] needs only the cells and the clock of a coherent
    world; the request it leaves in flight accounts for [loading]. *)
Lemma begin_fetch_coherent (who : Initiator) (w0 w : World) :
  coherent w0 -> view w = view w0 -> clock w = clock w0 ->
  coherent (begin_fetch who w).
Proof.
  intros [H1 H2 H3 H4 H5] Hv Hc.
  split; simpl; rewrite ?Hv, ?Hc; try discriminate; auto.
  intros _ _. unfold is_request. simpl. now rewrite Nat.eqb_refl.
Qed.

Lemma refresh_effect_coherent (w : World) :
  coherent w -> coherent (refresh_effect w).
Proof.
  intros [H1 H2 H3 H4 H5]. unfold refresh_effect.
  destruct (autoRefresh (view w)); split; simpl; auto.
Qed.

Lemma settle_coherent (id : nat) (o : Outcome) (w : World) :
  coherent w ->
  coherent (with_view (fetch_settle (clock w) o (view w))
              (with_in_flight
                 (filter (fun r => negb (is_request id r)) (in_flight w)) w)).
Proof.
  intros [H1 H2 H3 H4 H5].
  destruct o as [b | err]; [destruct (success b) eqn:Hb|].
  - unfold with_view, with_in_flight. cbn [view clock mounted in_flight next_request].
    rewrite (fetch_settle_success _ _ _ Hb).
    split; simpl; try discriminate.
    + intros msg Hmsg. split; [apply (H1 msg Hmsg) | reflexivity].
    + split; discriminate.
    + intros t [= <-]. lia.
  - destruct (fetch_settle_failure (clock w) (Fulfilled b) (view w) Hb)
      as (msg & Hmsg & E).
    unfold with_view, with_in_flight. cbn [view clock mounted in_flight next_request].
    rewrite E. split; simpl; try discriminate; auto.
    + intros m [= <-]. now split.
    + intros _. right. discriminate.
  - destruct (fetch_settle_failure (clock w) (Rejected err) (view w) I)
      as (msg & Hmsg & E).
    unfold with_view, with_in_flight. cbn [view clock mounted in_flight next_request].
    rewrite E. split; simpl; try discriminate; auto.
    + intros m [= <-]. now split.
    + intros _. right. discriminate.
Qed.

Lemma step_coherent (ev : Event) (w w' : World) :
  coherent w -> step ev w = Some w' -> coherent w'.
Proof.
  intros Hc H. destruct ev; step_inv H.
  - apply refresh_effect_coherent.
    now apply (begin_fetch_coherent _ w).
  - now apply (begin_fetch_coherent _ w).
  - now apply (begin_fetch_coherent _ w).
  - apply refresh_effect_coherent.
    destruct Hc as [H1 H2 H3 H4 H5]. split; simpl; auto.
  - destruct Hc as [H1 H2 H3 H4 H5]. split; simpl; auto.
    intros t Ht. specialize (H4 t Ht). lia.
  - now apply (begin_fetch_coherent _ w).
  - now apply settle_coherent.
Qed.

Lemma reachable_coherent (w : World) : reachable w -> coherent w.
Proof.
  intros (t0 & evs & Hrun).
  assert (G : forall evs w0 w1, coherent w0 -> run evs w0 = Some w1 ->
                                coherent w1).
  { clear. induction evs as [|ev evs IH]; simpl; intros w0 w1 H0 H.
    - now injection H as <-.
    - destruct (step ev w0) as [w'|] eqn:E; [|discriminate].
      eauto using step_coherent. }
  exact (G evs _ _ (unmounted_coherent t0) Hrun).
Qed.

(** [render] on a coherent world. *)
Lemma coherent_screen (w : World) :
  coherent w -> render (view w) = screen_of (view w).
Proof.
  intros [H1 H2 _ _ _].
  unfold render, screen_of.
  destruct (error (view w)) as [msg|] eqn:He.
  - destruct (H1 msg eq_refl) as [Hne ->]. simpl.
    destruct msg; [contradiction | reflexivity].
  - destruct (data (view w)) eqn:Hd.
    + now rewrite andb_false_r.
    + destruct H2 as [-> | H]; [reflexivity | reflexivity | contradiction].
Qed.

(** X1: in every world the component can reach, the screen is a function of
    [error] and [data] alone: the error screen with the recorded message
    whenever an error is recorded (also when a snapshot is held), otherwise
    the loading screen while no snapshot is held, otherwise the dashboard. *)
Theorem screen_determined (w : World) :
  reachable w -> render (view w) = screen_of (view w).
Proof.
  intros Hr. apply coherent_screen, reachable_coherent, Hr.
Qed.

Lemma screen_determined_witness :
  exists w,
    run Samples.first_failure (unmounted 0) = Some w /\
    render (view w) = ErrorScreen "Network Error".
Proof.
  eexists. split; [vm_compute; reflexivity|].
  exact (screen_determined _
           (ex_intro _ 0%N (ex_intro _ Samples.first_failure eq_refl))).
Defined.

(** X2: in every reachable world the "No markets found" row is on the
    screen exactly when no error is recorded and the snapshot held has no
    [markets] field; in particular the dashboard is never drawn without a
    snapshot. *)
Theorem placeholder_only_without_markets_field (w : World) :
  reachable w ->
  (shows_placeholder (render (view w)) = true <->
   error (view w) = None /\
   exists s, data (view w) = Some s /\ markets s = None) /\
  (forall d, render (view w) = MainScreen d -> data (view w) <> None).
Proof.
  intros Hr. rewrite (coherent_screen w (reachable_coherent w Hr)).
  unfold screen_of.
  destruct (error (view w)) as [msg|]; simpl.
  - split; [|discriminate].
    split; [discriminate | intros [H _]; discriminate].
  - destruct (data (view w)) as [s|] eqn:Hd; simpl.
    + split; [|discriminate]. rewrite Hd.
      unfold table_body, or_child, mapped_markets.
      destruct (markets s) as [ms|] eqn:Hm; simpl.
      * split; [discriminate|].
        intros [_ (s' & [= <-] & H)]. congruence.
      * split; [|reflexivity]. intros _. split; [reflexivity|]. now exists s.
    + split; [|discriminate].
      split; [discriminate|]. intros [_ (s & H & _)]. discriminate.
Qed.

Lemma placeholder_only_without_markets_field_witness :
  exists w,
    run [Mount; Settle 0 (Fulfilled Samples.bare_ok)] (unmounted 0) = Some w /\
    shows_placeholder (render (view w)) = true.
Proof.
  eexists. split; [vm_compute; reflexivity|].
  apply (placeholder_only_without_markets_field _
           (ex_intro _ 0%N
              (ex_intro _ [Mount; Settle 0 (Fulfilled Samples.bare_ok)]
                        eq_refl))).
  split; [reflexivity|]. now exists Samples.bare_ok.
Defined.

(** X3: in every reachable world [lastUpdated] is set exactly when a
    snapshot is held, and the time it holds is not in the future. *)
Theorem last_updated_with_data (w : World) :
  reachable w ->
  (lastUpdated (view w) = None <-> data (view w) = None) /\
  (forall t, lastUpdated (view w) = Some t -> (t <= clock w)%N).
Proof.
  intros Hr. destruct (reachable_coherent w Hr) as [_ _ H3 H4 _].
  now split.
Qed.

Lemma last_updated_with_data_witness :
  exists w,
    run Samples.first_load (unmounted 0) = Some w /\
    lastUpdated (view w) = Some 250%N /\ (250 <= clock w)%N.
Proof.
  eexists. split; [vm_compute; reflexivity|].
  split; [reflexivity|].
  exact (proj2 (last_updated_with_data _
                  (ex_intro _ 0%N (ex_intro _ Samples.first_load eq_refl)))
               250%N eq_refl).
Defined.

(** X4: in every reachable world of the mounted component, [loading] is on
    only while the request started last is still awaiting its response;
    and an error is never recorded while [loading] is on. *)
Theorem loading_has_request (w : World) :
  reachable w ->
  (mounted w = true -> loading (view w) = true ->
   exists r, In r (in_flight w) /\ S (req_id r) = next_request w) /\
  (loading (view w) = true -> error (view w) = None).
Proof.
  intros Hr. destruct (reachable_coherent w Hr) as [H1 _ _ _ H5]. split.
  - intros Hm Hl. specialize (H5 Hm Hl).
    apply existsb_exists in H5 as (r & Hin & Hid).
    exists r. split; [exact Hin|].
    unfold is_request in Hid. apply Nat.eqb_eq in Hid.
    destruct (next_request w) as [|n] eqn:Hn; simpl in Hid; [|congruence].
    exfalso. clear - Hr Hn Hm.
    destruct Hr as (t0 & evs & Hrun).
    assert (G : forall evs w0 w1, run evs w0 = Some w1 ->
                (mounted w0 = true -> next_request w0 <> 0%nat) ->
                mounted w1 = true -> next_request w1 <> 0%nat).
    { clear. induction evs as [|ev evs IH]; simpl; intros w0 w1 H H0.
      - now injection H as <-.
      - destruct (step ev w0) as [w'|] eqn:E; [|discriminate].
        apply (IH _ _ H). intros Hm'.
        destruct ev; step_inv E;
          unfold refresh_effect; try destruct (autoRefresh _); simpl;
          try discriminate;
          try (apply andb_true_iff in Heqb as [Hm0 _]); auto. }
    apply (G _ _ _ Hrun); [discriminate | exact Hm | exact Hn].
  - intros Hl. destruct (error (view w)) as [msg|] eqn:He; [|reflexivity].
    destruct (H1 msg eq_refl) as [_ Hf]. congruence.
Qed.

Lemma loading_has_request_witness :
  exists w r,
    run [Mount; Elapse 250] (unmounted 0) = Some w /\
    In r (in_flight w) /\ S (req_id r) = next_request w.
Proof.
  eexists.
  destruct (proj1 (loading_has_request _
                     (ex_intro _ 0%N
                        (ex_intro _ [Mount; Elapse 250] eq_refl)))
                  eq_refl eq_refl) as (r & Hin & Hid).
  exists r. split; [vm_compute; reflexivity|]. now split.
Defined.

End StateFacts.

(* ------------------------------------------------------------------ *)
(** ** Failed fetches and the error screen *)

Module FailureFacts.
Import Api Dashboard Render Lifecycle Observed LifecycleFacts.

Lemma or_str_spec (a : option string) (b : string) :
  (forall s, a = Some s -> s <> "" -> Truthy.or_str a b = s) /\
  (blank a -> Truthy.or_str a b = b).
Proof.
  unfold Truthy.or_str, blank. split.
  - intros s -> Hs. destruct s; [contradiction | reflexivity].
  - intros [-> | ->]; reflexivity.
Qed.

(** After a settle that recorded [msg], the error screen shows [msg]. *)
Lemma failed_view_screen (v : ViewState) (msg : string) :
  msg <> "" -> error v = Some msg -> loading v = false ->
  render v = ErrorScreen msg.
Proof.
  intros Hne He Hl. unfold render. rewrite Hl, He. simpl.
  destruct msg; [contradiction | reflexivity].
Qed.

(** X5: when the response is an envelope with [success: false], the
    handler records the envelope's [error] text, or "Failed to fetch data"
    when that text is missing or empty; it leaves [data] and [lastUpdated]
    alone, turns [loading] off, and the error screen with that message is
    what the component shows, whether or not a snapshot is held. *)
Theorem envelope_failure_recorded
  (now : Time) (b : Snapshot) (v : ViewState) :
  success b = false ->
  let v' := fetch_settle now (Fulfilled b) v in
  (forall s, error_field b = Some s -> s <> "" ->
     error v' = Some s /\ render v' = ErrorScreen s) /\
  (blank (error_field b) ->
     error v' = Some "Failed to fetch data" /\
     render v' = ErrorScreen "Failed to fetch data") /\
  data v' = data v /\
  lastUpdated v' = lastUpdated v /\
  loading v' = false.
Proof.
  intros Hb v'. unfold v', fetch_settle. rewrite Hb.
  destruct (or_str_spec (error_field b) generic_failure) as [Hs Hblank].
  cbn [error data lastUpdated loading setError setLoading].
  split; [|split]; [| |now repeat split].
  - intros s He Hne. rewrite (Hs s He Hne). split; [reflexivity|].
    now apply failed_view_screen.
  - intros Hbl. rewrite (Hblank Hbl). split; [reflexivity|].
    now apply failed_view_screen.
Qed.

Lemma envelope_failure_recorded_witness :
  render (fetch_settle 900 (Fulfilled Samples.refused)
                       (fetch_begin initial_view))
  = ErrorScreen "Upstream timeout".
Proof.
  refine (proj2 (proj1 (envelope_failure_recorded
                          900 Samples.refused (fetch_begin initial_view)
                          eq_refl)
                       "Upstream timeout" eq_refl _)).
  discriminate.
Defined.

(** X6: when the request throws, the message recorded is the response's
    [detail] if it is a non-empty text; otherwise the thrown error's
    [message] if that is non-empty; otherwise "Failed to fetch data".  In
    each case the error screen shows exactly that message. *)
Theorem thrown_message_preference
  (now : Time) (err : Thrown) (v : ViewState) :
  let v' := fetch_settle now (Rejected err) v in
  (forall d, detail err = Some d -> d <> "" ->
     error v' = Some d /\ render v' = ErrorScreen d) /\
  (forall m, blank (detail err) -> message err = Some m -> m <> "" ->
     error v' = Some m /\ render v' = ErrorScreen m) /\
  (blank (detail err) -> blank (message err) ->
     error v' = Some "Failed to fetch data" /\
     render v' = ErrorScreen "Failed to fetch data").
Proof.
  intros v'. unfold v', fetch_settle.
  cbn [error data lastUpdated loading setError setLoading].
  assert (S : forall msg,
            Truthy.or_str (Truthy.or_opt (detail err) (message err))
                          generic_failure = msg ->
            msg <> "" ->
            Some (Truthy.or_str (Truthy.or_opt (detail err) (message err))
                                generic_failure) = Some msg /\
            render
              (setLoading false
                 (setError
                    (Some (Truthy.or_str
                             (Truthy.or_opt (detail err) (message err))
                             generic_failure)) v)) = ErrorScreen msg).
  { intros msg E Hne. rewrite E. split; [reflexivity|].
    now apply failed_view_screen. }
  split; [|split].
  - intros d Hd Hne. apply S; [|exact Hne].
    rewrite Hd. destruct d; [contradiction | reflexivity].
  - intros m Hbl Hm Hne. apply S; [|exact Hne].
    destruct Hbl as [-> | ->]; simpl; rewrite Hm;
      (destruct m; [contradiction | reflexivity]).
  - intros Hd Hm. apply S; [|discriminate].
    destruct Hd as [-> | ->], Hm as [-> | ->]; reflexivity.
Qed.

Lemma thrown_message_preference_witness :
  error (fetch_settle 900 (Rejected Samples.timed_out) initial_view)
  = Some "timeout exceeded".
Proof.
  refine (proj1 (proj1 (proj2 (thrown_message_preference
                                 900 Samples.timed_out initial_view))
                       "timeout exceeded" _ eq_refl _)).
  - right. reflexivity.
  - discriminate.
Defined.

(** X7: the Retry button exists only on the error screen; pressing it starts
    one fetch, clears the error at once and replaces the error screen by
    the loading screen when no snapshot is held, otherwise by the dashboard
    with the snapshot held before and the Refresh button disabled. *)
Theorem retry_leaves_error_screen (w w' : World) :
  step ClickRetry w = Some w' ->
  (exists msg, render (view w) = ErrorScreen msg) /\
  error (view w') = None /\
  data (view w') = data (view w) /\
  fetch_log w' =
    {| req_id := next_request w; req_started := clock w; req_by := ByClick |}
    :: fetch_log w /\
  render (view w') =
    match data (view w) with
    | None => LoadingScreen
    | Some _ => MainScreen (main_view (view w'))
    end /\
  refresh_disabled (main_view (view w')) = true.
Proof.
  intros H. step_inv H. split; [now eexists|].
  cbn [view begin_fetch fetch_log].
  repeat split.
  unfold render, fetch_begin. cbn [loading data error setError setLoading].
  now destruct (data (view w)).
Qed.

Lemma retry_leaves_error_screen_witness :
  exists w w',
    run Samples.first_failure (unmounted 0) = Some w /\
    step ClickRetry w = Some w' /\
    render (view w') = LoadingScreen.
Proof.
  eexists. eexists.
  split; [vm_compute; reflexivity|].
  match goal with
  | |- step ClickRetry ?w = Some _ /\ _ =>
      pose proof (retry_leaves_error_screen w _ eq_refl) as H
  end.
  split; [reflexivity|].
  exact (proj1 (proj2 (proj2 (proj2 (proj2 H))))).
Defined.

End FailureFacts.

(* ------------------------------------------------------------------ *)
(** ** The period of the refresh timer *)

Module TickFacts.
Import Api Dashboard Render Lifecycle Observed LifecycleFacts SchedulerFacts.

Lemma refresh_effect_window (w : World) :
  tick_window w -> tick_window (refresh_effect w).
Proof.
  unfold tick_window, refresh_effect. intros H.
  assert (Hc : Forall (fun t => (clock w <= due t)%N /\
                                (due t <= clock w + period)%N)
                      match effect_cleanup w with
                      | Some id => clearInterval id (timers w)
                      | None => timers w
                      end).
  { destruct (effect_cleanup w); [|exact H].
    unfold clearInterval. rewrite Forall_forall in *.
    intros t Ht. apply filter_In in Ht as [Ht _]. now apply H. }
  destruct (autoRefresh (view w)); simpl; [|exact Hc].
  apply Forall_app. split; [exact Hc|].
  constructor; [simpl; lia | constructor].
Qed.

Lemma step_window (ev : Event) (w w' : World) :
  timer_discipline w -> tick_window w -> step ev w = Some w' ->
  tick_window w'.
Proof.
  intros Hd Hw H. destruct ev; step_inv H.
  - now apply refresh_effect_window.
  - exact Hw.
  - exact Hw.
  - now apply refresh_effect_window.
  - apply andb_true_iff in Heqb as [_ Hall].
    unfold tick_window in *. simpl.
    rewrite forallb_forall in Hall. rewrite Forall_forall in *.
    intros t Ht. specialize (Hall t Ht). specialize (Hw t Ht).
    apply N.leb_le in Hall. lia.
  - apply andb_true_iff in Heqb as [_ Hdue].
    unfold tick_window. simpl.
    destruct (discipline_cases w Hd) as [[Ht _] | (i & d0 & Ht & _)];
      rewrite Ht in *; simpl in *; [discriminate|].
    rewrite orb_false_r in Hdue. unfold is_due in Hdue. simpl in Hdue.
    apply andb_true_iff in Hdue as [Hi Hd0].
    apply N.eqb_eq in Hd0. subst d0.
    unfold reschedule. simpl. rewrite Hi.
    constructor; [simpl; lia | constructor].
  - exact Hw.
Qed.

Lemma reachable_window (w : World) : reachable w -> tick_window w.
Proof.
  intros (t0 & evs & Hrun).
  assert (G : forall evs w0 w1,
            timer_discipline w0 -> tick_window w0 ->
            run evs w0 = Some w1 -> tick_window w1).
  { clear. induction evs as [|ev evs IH]; simpl; intros w0 w1 Hd Hw H.
    - now injection H as <-.
    - destruct (step ev w0) as [w'|] eqn:E; [|discriminate].
      eauto using step_discipline, step_window. }
  apply (G evs (unmounted t0)); [| |exact Hrun].
  - unfold timer_discipline. simpl. now split.
  - constructor.
Qed.

(** X8: while the mounted component has auto-refresh on, exactly one tick
    is pending, it is due no earlier than now and no later than 30000 ms
    from now, and once that time has passed the timer can fire. *)
Theorem next_tick_within_period (w : World) :
  reachable w -> mounted w = true -> autoRefresh (view w) = true ->
  exists id d w1,
    timers w = [{| timer_id := id; due := d |}] /\
    (clock w <= d)%N /\ (d <= clock w + 30000)%N /\
    step (Elapse (d - clock w)) w = Some w1 /\
    clock w1 = d /\
    step (TimerFires id) w1 <> None.
Proof.
  intros Hr Hm Ha.
  pose proof (reachable_discipline w Hr) as Hd.
  pose proof (reachable_window w Hr) as Hw.
  unfold timer_discipline in Hd. rewrite Hm, Ha in Hd. simpl in Hd.
  destruct Hd as (id & d & Ht & _).
  unfold tick_window in Hw. rewrite Ht in Hw.
  inversion Hw as [|? ? [Hlo Hhi] _]; subst. simpl in Hlo, Hhi.
  exists id, d, (with_clock (clock w + (d - clock w)) w).
  split; [exact Ht|]. split; [exact Hlo|]. split; [exact Hhi|].
  split; [|split].
  - unfold step. rewrite Hm, Ht. simpl.
    replace (clock w + (d - clock w) <=? d)%N with true
      by (symmetry; apply N.leb_le; lia).
    reflexivity.
  - simpl. lia.
  - unfold step. simpl. rewrite Hm, Ht. simpl. unfold is_due. simpl.
    rewrite Nat.eqb_refl.
    replace (d =? clock w + (d - clock w))%N with true
      by (symmetry; apply N.eqb_eq; lia).
    discriminate.
Qed.

Lemma next_tick_within_period_witness :
  exists w id d,
    run Samples.first_load (unmounted 0) = Some w /\
    timers w = [{| timer_id := id; due := d |}] /\
    (clock w <= d)%N /\ (d <= clock w + 30000)%N.
Proof.
  eexists.
  destruct (next_tick_within_period _
              (ex_intro _ 0%N (ex_intro _ Samples.first_load eq_refl))
              eq_refl eq_refl)
    as (id & d & w1 & Ht & Hlo & Hhi & _).
  exists id, d. split; [vm_compute; reflexivity|].
  split; [exact Ht|]. now split.
Defined.

(** X9: whenever the timer fires it starts exactly one fetch, leaves one
    timer pending with the next tick exactly 30000 ms after this one, and
    the fetch clears any recorded error without touching the snapshot. *)
Theorem tick_starts_one_fetch (w w' : World) (id : nat) :
  reachable w -> step (TimerFires id) w = Some w' ->
  timers w' = [{| timer_id := id; due := (clock w + 30000)%N |}] /\
  fetch_log w' =
    {| req_id := next_request w; req_started := clock w; req_by := ByTimer |}
    :: fetch_log w /\
  error (view w') = None /\ loading (view w') = true /\
  data (view w') = data (view w).
Proof.
  intros Hr H.
  pose proof (reachable_discipline w Hr) as Hd.
  step_inv H. apply andb_true_iff in Heqb as [_ Hdue].
  destruct (discipline_cases w Hd) as [[Ht _] | (i & d0 & Ht & _)];
    rewrite Ht in *; simpl in Hdue; [discriminate|].
  rewrite orb_false_r in Hdue. unfold is_due in Hdue. simpl in Hdue.
  apply andb_true_iff in Hdue as [Hi Hd0].
  apply N.eqb_eq in Hd0. apply Nat.eqb_eq in Hi. subst.
  simpl. unfold reschedule. simpl. rewrite Nat.eqb_refl.
  now repeat split.
Qed.

Lemma tick_starts_one_fetch_witness :
  exists w w',
    run [Mount; Elapse 30000] (unmounted 0) = Some w /\
    step (TimerFires 0) w = Some w' /\
    timers w' = [{| timer_id := 0; due := 60000 |}].
Proof.
  eexists. eexists.
  split; [vm_compute; reflexivity|].
  match goal with
  | |- step (TimerFires 0) ?w = Some _ /\ _ =>
      pose proof (tick_starts_one_fetch w _ 0%nat
                    (ex_intro _ 0%N
                       (ex_intro _ [Mount; Elapse 30000] eq_refl))
                    eq_refl) as H
  end.
  split; [reflexivity|]. exact (proj1 H).
Defined.

(** X10: switching auto-refresh back on starts no fetch by itself; it sets
    one timer whose first tick is due exactly 30000 ms after the click,
    whatever had elapsed of the period before it was switched off. *)
Theorem switch_on_restarts_period (w w' : World) :
  reachable w -> autoRefresh (view w) = false ->
  step ClickAuto w = Some w' ->
  autoRefresh (view w') = true /\
  timers w' = [{| timer_id := next_timer w; due := (clock w + 30000)%N |}] /\
  fetch_log w' = fetch_log w /\
  in_flight w' = in_flight w /\
  data (view w') = data (view w) /\
  error (view w') = error (view w) /\
  loading (view w') = loading (view w).
Proof.
  intros Hr Ha H.
  pose proof (reachable_discipline w Hr) as Hd.
  step_inv H. unfold timer_discipline in Hd.
  rewrite Ha, andb_false_r in Hd. destruct Hd as [Ht Hc].
  unfold refresh_effect. simpl. rewrite Ha, Hc, Ht. simpl.
  now repeat split.
Qed.

Lemma switch_on_restarts_period_witness :
  exists w w',
    run (Samples.switched_off ++ [Elapse 100000])%list (unmounted 0) = Some w /\
    step ClickAuto w = Some w' /\
    timers w' = [{| timer_id := 1; due := 130250 |}].
Proof.
  eexists. eexists.
  split; [vm_compute; reflexivity|].
  match goal with
  | |- step ClickAuto ?w = Some _ /\ _ =>
      pose proof (switch_on_restarts_period w _
                    (ex_intro _ 0%N
                       (ex_intro _ (Samples.switched_off ++ [Elapse 100000])%list
                                 eq_refl))
                    eq_refl eq_refl) as H
  end.
  split; [reflexivity|]. exact (proj1 (proj2 H)).
Defined.

End TickFacts.

(* ------------------------------------------------------------------ *)
(** ** Rows, cards and formatted numbers *)

Module DisplayFacts.
Import JSNumber Utils Api Dashboard Render Text Observed.
Import NumberFacts TextFacts BadgeFacts FormatFacts.

Lemma map_from_length {A B : Type} (f : A -> nat -> B) (l : list A) :
  forall i, List.length (map_from f i l) = List.length l.
Proof. induction l; intros i; simpl; [reflexivity | now rewrite IHl]. Qed.

Lemma map_from_pointwise {A B C : Type}
  (f : A -> nat -> B) (g : B -> C) (h : A -> C) :
  (forall a i, g (f a i) = h a) ->
  forall l i, map g (map_from f i l) = map h l.
Proof.
  intros H. induction l as [|a l IH]; intros i; simpl; [reflexivity|].
  now rewrite H, IH.
Qed.

Lemma map_from_later_rows (ms : list MarketRow) :
  forall i, map best_badge (map_from render_row (S i) ms) =
            map (fun _ => false) ms.
Proof.
  induction ms as [|m ms IH]; intros i; simpl; [reflexivity|].
  now rewrite IH.
Qed.

(** X11: when the snapshot has a [markets] list, the table body is one row
    per market in the order received, keyed and labelled by the market's
    symbol; the first row, and no other, is highlighted and carries the
    BEST badge, and each row's funding badge is the ladder's answer for that
    market's rate. *)
Theorem rows_follow_markets (s : Snapshot) (ms : list MarketRow) :
  markets s = Some ms ->
  exists rows,
    table_body (Some s) = RowArray rows /\
    List.length rows = List.length ms /\
    map row_key rows = map symbol ms /\
    map symbol_text rows = map symbol ms /\
    map best_badge rows =
      match ms with
      | [] => []
      | _ :: rest => true :: map (fun _ => false) rest
      end /\
    map row_highlighted rows = map best_badge rows /\
    map funding_variant rows =
      map (fun m => getFundingBadgeVariant (funding_rate m)) ms.
Proof.
  intros Hm. exists (array_map render_row ms).
  split; [unfold table_body, mapped_markets; now rewrite Hm|].
  unfold array_map.
  split; [apply map_from_length|].
  split; [now apply map_from_pointwise|].
  split; [now apply map_from_pointwise|].
  split; [|split].
  - destruct ms as [|m rest]; simpl; [reflexivity|].
    now rewrite map_from_later_rows.
  - clear Hm. generalize 0%nat. induction ms as [|m rest IH]; intros i; simpl;
      [reflexivity | now rewrite IH].
  - now apply map_from_pointwise.
Qed.

Lemma rows_follow_markets_witness :
  exists rows,
    table_body (Some Samples.one_market) = RowArray rows /\
    map best_badge rows = [true] /\
    map funding_variant rows = ["success"].
Proof.
  destruct (rows_follow_markets Samples.one_market [Samples.btc] eq_refl)
    as (rows & Hb & _ & _ & _ & Hbest & _ & Hvar).
  exists rows. split; [exact Hb|]. split; [exact Hbest|].
  rewrite Hvar. vm_compute. reflexivity.
Defined.

(** X12: the "Highest Funding" card shows "N/A" exactly when there is no
    snapshot or the snapshot has no [highest_funding_rate]; it then shows
    "No data" as the symbol.  Otherwise it shows the rate as a percentage
    and the symbol, with "No data" standing in for an empty symbol.  The
    two count cards show 0 when there is no snapshot. *)
Theorem highest_card_sentinels (v : ViewState) :
  let d := main_view v in
  let h := opt_bind (data v) highest_funding_rate in
  (highest_value d = "N/A" <-> h = None) /\
  (h = None -> highest_symbol d = "No data") /\
  (forall x, h = Some x ->
     highest_value d = formatPercent (hf_funding_rate x) None /\
     highest_symbol d = (if Truthy.str (hf_symbol x) then hf_symbol x
                         else "No data")) /\
  (data v = None -> total_card d = 0%Z /\ qualified_card d = 0%Z).
Proof.
  intros d h. unfold d, main_view. cbn [highest_value highest_symbol
                                        total_card qualified_card].
  fold h. split; [|split; [|split]].
  - destruct h as [x|]; [|now split].
    split; [|discriminate]. intros E. exfalso.
    assert (L : last_char (formatPercent (hf_funding_rate x) None)
                = Some "%"%char).
    { unfold formatPercent. now rewrite last_char_append. }
    rewrite E in L. discriminate.
  - now intros ->.
  - intros x ->. split; reflexivity.
  - now intros ->.
Qed.

Lemma highest_card_sentinels_witness :
  highest_symbol (main_view (fetchData 0 120 (Fulfilled Samples.empty_ok)
                                       initial_view)) = "No data".
Proof.
  exact (proj1 (proj2 (highest_card_sentinels
                         (fetchData 0 120 (Fulfilled Samples.empty_ok)
                                    initial_view)))
               eq_refl).
Defined.


Lemma SFleb_ltb_trans (x y z : number) :
  SFleb x y = true -> SFltb y z = true -> SFltb x z = true.
Proof.
  unfold SFleb, SFltb, SFcompare.
  destruct x as [sx|sx| |sx mx ex], y as [sy|sy| |sy my ey],
           z as [sz|sz| |sz mz ez];
    try destruct sx; try destruct sy; try destruct sz;
    simpl; try discriminate; try reflexivity;
    order_cases.
Qed.

Lemma SFltb_leb_trans (x y z : number) :
  SFltb x y = true -> SFleb y z = true -> SFltb x z = true.
Proof.
  unfold SFleb, SFltb, SFcompare.
  destruct x as [sx|sx| |sx mx ex], y as [sy|sy| |sy my ey],
           z as [sz|sz| |sz mz ez];
    try destruct sx; try destruct sy; try destruct sz;
    simpl; try discriminate; try reflexivity;
    order_cases.
Qed.






End DisplayFacts.

(* ------------------------------------------------------------------ *)
(** ** Shape of percentages and order of badges *)

Module ShapeFacts.
Import JSNumber Utils Api Dashboard Render Text Observed.
Import NumberFacts TextFacts BadgeFacts DisplayFacts.

Lemma append_assoc3 (a b c : string) : (a ++ b) ++ c = a ++ b ++ c.
Proof. induction a; simpl; [reflexivity | now f_equal]. Qed.

(** With at least one decimal, [fixed_digits] is digits, a point and
    exactly that many digits. *)
Lemma fixed_digits_fraction (n : N) (f : nat) :
  exists whole frac,
    fixed_digits n (S f) = whole ++ "." ++ frac /\
    all_digits whole = true /\ whole <> "" /\
    all_digits frac = true /\ String.length frac = S f.
Proof.
  unfold fixed_digits.
  set (m0 := digits n).
  set (m := if (String.length m0 <=? S f)%nat
            then zeros (S (S f) - String.length m0) ++ m0 else m0).
  assert (Hm : all_digits m = true).
  { unfold m. destruct (String.length m0 <=? S f)%nat.
    - rewrite all_digits_append, all_digits_zeros. apply all_digits_digits.
    - apply all_digits_digits. }
  assert (Hk : (S f < String.length m)%nat).
  { unfold m. destruct (Nat.leb_spec (String.length m0) (S f)).
    - rewrite length_append, length_zeros.
      pose proof (digits_nonempty n) as Hn. fold m0 in Hn. lia.
    - lia. }
  exists (substring 0 (String.length m - S f) m),
         (substring (String.length m - S f) (S f) m).
  split; [reflexivity|].
  split; [now apply all_digits_substring|].
  split; [apply nonempty_length; rewrite length_substring; lia|].
  split; [now apply all_digits_substring|].
  apply length_substring. lia.
Qed.

Lemma toFixed_fixed_shape (x : number) (f : nat) :
  fixed_range x = true ->
  exists sign whole frac,
    toFixed x (S f) = sign ++ whole ++ "." ++ frac /\
    (sign = "" \/ sign = "-") /\
    all_digits whole = true /\ whole <> "" /\
    all_digits frac = true /\ String.length frac = S f.
Proof.
  intros Hr. destruct x as [s|s| |s m e]; try discriminate Hr.
  - destruct (fixed_digits_fraction 0 f) as (whole & frac & E & H).
    exists "", whole, frac. split; [exact E|]. split; [now left | exact H].
  - simpl in Hr. apply negb_true_iff in Hr.
    destruct (fixed_digits_fraction (nearest_scaled m e (S f)) f)
      as (whole & frac & E & H).
    exists (if s then "-" else ""), whole, frac.
    split; [unfold toFixed; now rewrite Hr, E|].
    split; [destruct s; auto | exact H].
Qed.

(** X15: when one hundred times the input is finite and below [10^21] in
    magnitude, [formatPercent] with [d] decimals ([1 <= d <= 100]) is an
    optional minus sign, at least one digit, a point, exactly [d] digits
    and "%". *)
Theorem percent_has_exact_decimals (n : number) (d : nat) :
  (1 <= d)%nat -> (d <= 100)%nat ->
  fixed_range (mul n (of_Z 100)) = true ->
  exists sign whole frac,
    formatPercent n (Some d) = sign ++ whole ++ "." ++ frac ++ "%" /\
    (sign = "" \/ sign = "-") /\
    all_digits whole = true /\ whole <> "" /\
    all_digits frac = true /\ String.length frac = d.
Proof.
  intros Hd _ Hr. destruct d as [|f]; [lia|].
  destruct (toFixed_fixed_shape _ f Hr) as (sign & whole & frac & E & H).
  exists sign, whole, frac. split; [|exact H].
  unfold formatPercent, default_arg. rewrite E.
  now rewrite !append_assoc3.
Qed.

Lemma percent_has_exact_decimals_witness :
  exists sign whole frac,
    formatPercent (neg (decimal 123 5)) (Some 4%nat) =
      sign ++ whole ++ "." ++ frac ++ "%" /\
    String.length frac = 4%nat.
Proof.
  assert (H1 : (1 <= 4)%nat) by lia.
  assert (H2 : (4 <= 100)%nat) by lia.
  destruct (percent_has_exact_decimals (neg (decimal 123 5)) 4 H1 H2 eq_refl)
    as (sign & whole & frac & E & _ & _ & _ & _ & L).
  exists sign, whole, frac. now split.
Defined.

(** A ladder's answer never weakens as its argument grows. *)
Lemma ladder_monotone (lo mid hi x y : number) :
  SFltb lo mid = true -> SFltb mid hi = true -> SFleb x y = true ->
  let variant z :=
    if gt z hi then "success"
    else if gt z mid then "warning"
    else if lt z lo then "destructive"
    else "secondary" in
  (badge_rank (variant x) <= badge_rank (variant y))%nat.
Proof.
  intros Hlm Hmh Hxy.
  destruct (ladder_tests lo mid hi x Hlm Hmh) as [Hxu Hxd].
  destruct (ladder_tests lo mid hi y Hlm Hmh) as [Hyu Hyd].
  assert (Hup1 : gt x hi = true -> gt y hi = true).
  { unfold gt. intros H. exact (SFltb_leb_trans _ _ _ H Hxy). }
  assert (Hup2 : gt x mid = true -> gt y mid = true).
  { unfold gt. intros H. exact (SFltb_leb_trans _ _ _ H Hxy). }
  assert (Hdn : lt y lo = true -> lt x lo = true).
  { unfold lt. intros H. exact (SFleb_ltb_trans _ _ _ Hxy H). }
  cbv beta zeta.
  destruct (gt x hi) eqn:X1.
  - rewrite (Hup1 eq_refl). apply Nat.le_refl.
  - destruct (gt x mid) eqn:X2.
    + rewrite (Hup2 eq_refl). destruct (gt y hi); vm_compute; lia.
    + destruct (lt x lo) eqn:X3.
      * destruct (gt y hi), (gt y mid), (lt y lo); vm_compute; lia.
      * destruct (lt y lo) eqn:Y3; [specialize (Hdn eq_refl); discriminate|].
        destruct (gt y hi), (gt y mid); vm_compute; lia.
Qed.

(** X16: both badge functions are monotone: of two values, the larger one
    never gets the weaker badge, in the order destructive, secondary,
    warning, success. *)
Theorem badges_monotone (x y : number) :
  ge y x = true ->
  (badge_rank (getFundingBadgeVariant x) <=
   badge_rank (getFundingBadgeVariant y))%nat /\
  (badge_rank (getPriceChangeBadgeVariant x) <=
   badge_rank (getPriceChangeBadgeVariant y))%nat.
Proof.
  unfold ge. intros Hxy.
  destruct funding_thresholds_ordered as [F1 F2].
  destruct change_thresholds_ordered as [C1 C2].
  split.
  - exact (ladder_monotone _ _ _ x y F1 F2 Hxy).
  - exact (ladder_monotone _ _ _ x y C1 C2 Hxy).
Qed.

Lemma badges_monotone_witness :
  (badge_rank (getFundingBadgeVariant (decimal 2 4)) <=
   badge_rank (getFundingBadgeVariant (decimal 6 4)))%nat.
Proof.
  exact (proj1 (badges_monotone (decimal 2 4) (decimal 6 4) eq_refl)).
Defined.

End ShapeFacts.

(* ------------------------------------------------------------------ *)
(** ** Refreshing while a snapshot is shown *)

Module RefreshFacts.
Import Api Dashboard Render Lifecycle Observed LifecycleFacts.



End RefreshFacts.
